(** * InfraPilot: the Python error generator (python-error-app/app.py)

    A shallow embedding of the fault engine [simulate_error], of the four
    Flask routes and of one tick of the background logger, followed by the
    properties of the engine: the crash-after policy, the request counter,
    the probabilistic and fixed error policies and the memory leak.

    Python integers are unbounded, hence [Z].  Python floats are IEEE 754
    binary64 values, hence [spec_float] with the comparison [SFltb].  The
    module globals [request_count] and [memory_leak], the records handed
    to [logging] and the values obtained from [random.random()] form the
    world that every call threads through; an exception leaves the world as
    it was when it was raised.  Calls are taken one after the other.  The
    program invokes the engine from the request threads of the server
    (line 88) and from the daemon thread of the background logger (lines
    108 and 121-122), never from the main thread: an exception raised
    there, [SystemExit] included, ends the calling thread and leaves the
    process and its state to the calls that follow. *)

From Stdlib Require Import ZArith List String Ascii Bool Lia.
From Stdlib Require Import Floats.SpecFloat.
From Stdlib Require Import DecimalString.
Import ListNotations.

Local Open Scope string_scope.
Local Open Scope Z_scope.

(** ** The Python runtime, as far as the program uses it *)

Module Py.

(** [logging] levels used by the program; the root logger is configured
    at level INFO, so every record below is emitted. *)
Inductive Level : Type := INFO | WARNING | ERROR | CRITICAL.

Definition Level_eqb (a b : Level) : bool :=
  match a, b with
  | INFO, INFO | WARNING, WARNING | ERROR, ERROR | CRITICAL, CRITICAL => true
  | _, _ => false
  end.

Record LogRecord : Type := mkLog { levelname : Level; message : string }.

(** The exceptions the program raises: [raise Exception(msg)] and
    [sys.exit(code)], which raises [SystemExit(code)]. *)
Inductive Exc : Type :=
| Exception (msg : string)
| SystemExit (code : Z).

Inductive Completion (A : Type) : Type :=
| Return (a : A)
| Raise (e : Exc).
Arguments Return {A} a.
Arguments Raise {A} e.

(** [str(n)] for an integer. *)
Definition str (n : Z) : string := NilZero.string_of_int (Z.to_int n).

(** [len(l)] *)
Definition len {A : Type} (l : list A) : Z := Z.of_nat (List.length l).

(** [[x] * n] *)
Definition list_times {A : Type} (x : A) (n : Z) : list A := repeat x (Z.to_nat n).

(** binary64 *)
Definition float : Type := spec_float.
Definition float_valid (x : float) : bool := valid_binary 53 1024 x.
Definition float_zero : float := S754_zero false.
Definition float_one : float := S754_finite false 4503599627370496 (-52).

(** What [random.random()] promises: a binary64 value in [0.0, 1.0). *)
Definition in_unit_interval (x : float) : bool :=
  float_valid x && SFleb float_zero x && SFltb x float_one.

(** What the [random] module is about to hand out when one call of the
    engine begins: the result of the next [random.random()], and the index
    the next [random.choice(seq)] draws with [_randbelow(len(seq))]. *)
Record Random : Type := mkRandom { next_random : float; randbelow : nat }.

(** [random.choice(seq)] *)
Definition random_choice (rnd : Random) (seq : list string) : string :=
  nth (randbelow rnd) seq "".

(** JSON values handed to [jsonify], and a Flask response. *)
Inductive JValue : Type :=
| JString (s : string)
| JInt (n : Z)
| JFloat (x : float)
| JBool (b : bool).

Record Response : Type := mkResponse { status : Z; body : list (string * JValue) }.

Definition jsonify (d : list (string * JValue)) : Response := mkResponse 200 d.
Definition with_status (r : Response) (code : Z) : Response := mkResponse code (body r).

End Py.
Import Py.

(** ** Configuration and state of the program *)

(** The four settings read from the environment at import time. *)
Record Config : Type := mkConfig {
  ERROR_TYPE : string;
  ERROR_RATE : float;
  CRASH_AFTER : Z;
  OOM_TRIGGER : bool
}.

(** The module globals, the log records emitted so far and the values
    [random.random()] has returned so far (both oldest first). *)
Record World : Type := mkWorld {
  request_count : Z;
  memory_leak : list (list Z);
  log_output : list LogRecord;
  drawn : list float
}.

(** [request_count = 0], [memory_leak = []], nothing logged, nothing drawn. *)
Definition initial : World := mkWorld 0 [] [] [].

Definition dq : string := String "034"%char EmptyString.

Definition ERROR_MESSAGES : list string :=
  [ "DatabaseConnectionError: Unable to connect to PostgreSQL at db:5432";
    "RedisConnectionError: Connection refused to redis:6379";
    "TimeoutException: Request to external API timed out after 30s";
    "AuthenticationError: JWT token expired or invalid";
    "PermissionDenied: Insufficient permissions to access resource";
    "FileNotFoundError: Configuration file /etc/app/config.yaml not found";
    "NetworkError: Failed to resolve DNS for api.service.local";
    "ValueError: Invalid input format in request payload";
    "KeyError: Required field " ++ dq ++ "user_id" ++ dq ++ " missing from request";
    "ImportError: Module " ++ dq ++ "critical_dependency" ++ dq ++ " not found" ].

(** ** State and exceptions *)

Definition Prog (A : Type) : Type := World -> Completion A * World.

Definition ret {A : Type} (a : A) : Prog A := fun w => (Return a, w).

Definition bind {A B : Type} (c : Prog A) (k : A -> Prog B) : Prog B :=
  fun w =>
    match c w with
    | (Return a, w') => k a w'
    | (Raise e, w') => (Raise e, w')
    end.

Declare Scope prog_scope.
Delimit Scope prog_scope with prog.
Notation "x <- c ;; k" := (bind c (fun x => k))
  (at level 61, c at next level, right associativity) : prog_scope.
Notation "c ;; k" := (bind c (fun _ => k))
  (at level 61, right associativity) : prog_scope.
Local Open Scope prog_scope.

Definition raise {A : Type} (e : Exc) : Prog A := fun w => (Raise e, w).
Definition sys_exit {A : Type} (code : Z) : Prog A := raise (SystemExit code).

(** [if b: c] without an [else]. *)
Definition when (b : bool) (c : Prog unit) : Prog unit := if b then c else ret tt.

Definition get_request_count : Prog Z := fun w => (Return (request_count w), w).

Definition incr_request_count : Prog unit :=
  fun w => (Return tt,
            mkWorld (request_count w + 1) (memory_leak w) (log_output w) (drawn w)).

Definition memory_leak_append (blk : list Z) : Prog unit :=
  fun w => (Return tt,
            mkWorld (request_count w) (memory_leak w ++ [blk])%list (log_output w) (drawn w)).

Definition len_memory_leak : Prog Z := fun w => (Return (len (memory_leak w)), w).

Definition logging (lvl : Level) (msg : string) : Prog unit :=
  fun w => (Return tt,
            mkWorld (request_count w) (memory_leak w) (log_output w ++ [mkLog lvl msg])%list
                    (drawn w)).

(** [random.random()] *)
Definition random_random (rnd : Random) : Prog float :=
  fun w => (Return (next_random rnd),
            mkWorld (request_count w) (memory_leak w) (log_output w)
                    (drawn w ++ [next_random rnd])%list).

(** ** The program *)

(** [simulate_error()], lines 41-72. *)
Definition simulate_error (cfg : Config) (rnd : Random) : Prog unit :=
  incr_request_count ;;
  n <- get_request_count ;;
  when ((CRASH_AFTER cfg >? 0) && (n >=? CRASH_AFTER cfg))
    (logging CRITICAL ("💥 FATAL: Crash limit reached after " ++ str n ++ " requests!") ;;
     sys_exit 1) ;;
  when (OOM_TRIGGER cfg)
    (memory_leak_append (list_times 0 10000) ;;
     l <- len_memory_leak ;;
     when (l mod 10 =? 0)
       (logging WARNING ("⚠️  Memory leak: " ++ str (l * 10000) ++ " items allocated"))) ;;
  u <- random_random rnd ;;
  when (SFltb u (ERROR_RATE cfg))
    (let error_msg := random_choice rnd ERROR_MESSAGES in
     n <- get_request_count ;;
     logging ERROR ("❌ ERROR [" ++ str n ++ "]: " ++ error_msg) ;;
     when (ERROR_TYPE cfg =? "panic")%string (raise (Exception error_msg))) ;;
  if (ERROR_TYPE cfg =? "import-error")%string then
    logging ERROR
      ("❌ ImportError: Failed to import required module " ++ dq ++ "database_connector" ++ dq)
  else if (ERROR_TYPE cfg =? "db-error")%string then
    logging ERROR "❌ DatabaseError: Connection pool exhausted, max connections: 100"
  else if (ERROR_TYPE cfg =? "api-error")%string then
    logging ERROR "❌ APIError: Upstream service returned 503 Service Unavailable"
  else if (ERROR_TYPE cfg =? "disk-full")%string then
    logging ERROR
      ("❌ IOError: [Errno 28] No space left on device: " ++ dq ++ "/var/log/app.log" ++ dq)
  else ret tt.

(** [GET /health] *)
Definition health (cfg : Config) : Prog Response :=
  if (ERROR_TYPE cfg =? "unhealthy")%string then
    ret (with_status
           (jsonify [("status", JString "unhealthy"); ("error", JString "Service degraded")])
           500)
  else
    n <- get_request_count ;;
    ret (jsonify [("status", JString "healthy"); ("requests", JInt n)]).

(** [GET /ready] *)
Definition ready (cfg : Config) : Prog Response :=
  if (ERROR_TYPE cfg =? "not-ready")%string then
    ret (with_status
           (jsonify [("ready", JBool false); ("reason", JString "Dependencies unavailable")])
           503)
  else ret (jsonify [("ready", JBool true)]).

(** [GET /] *)
Definition index (cfg : Config) (rnd : Random) : Prog Response :=
  simulate_error cfg rnd ;;
  n <- get_request_count ;;
  ret (jsonify [("message", JString "Python service running");
                ("requests", JInt n);
                ("error_type", JString (ERROR_TYPE cfg));
                ("error_rate", JFloat (ERROR_RATE cfg))]).

(** [GET /metrics]; [now] is what [datetime.now().isoformat()] returns. *)
Definition metrics (cfg : Config) (now : string) : Prog Response :=
  n <- get_request_count ;;
  ret (jsonify [("requests_total", JInt n);
                ("error_type", JString (ERROR_TYPE cfg));
                ("timestamp", JString now)]).

(** One turn of the loop of [background_logger()], after its [time.sleep(5)]. *)
Definition background_tick (cfg : Config) (rnd : Random) : Prog unit :=
  simulate_error cfg rnd ;;
  n <- get_request_count ;;
  logging INFO ("📈 Status: " ++ str n ++ " requests processed").

(** ** Runs of the engine *)

(** The call raised [SystemExit], which is what [sys.exit] does. *)
Definition exits {A : Type} (c : Completion A) : bool :=
  match c with
  | Raise (SystemExit _) => true
  | _ => false
  end.

(** The call did not raise [SystemExit]. *)
Definition survives {A : Type} (c : Completion A) : Prop := exits c = false.

(** Successive engine invocations, one per element of [rnds], each made
    from a request thread or from the thread of the background logger.
    Whatever an invocation raises, [Exception] or [SystemExit], ends its
    own thread only: the next invocation takes place and finds the world as
    the previous one left it. *)
Fixpoint invocations (cfg : Config) (rnds : list Random) (w : World)
  : list (Completion unit) * World :=
  match rnds with
  | [] => ([], w)
  | rnd :: rest =>
      let (c, w') := simulate_error cfg rnd w in
      let (cs, w'') := invocations cfg rest w' in (c :: cs, w'')
  end.

(** ** Reading the log *)

Definition has_level (l : Level) (r : LogRecord) : bool := Level_eqb (levelname r) l.

Definition count_level (l : Level) (log : list LogRecord) : nat :=
  List.length (filter (has_level l) log).

(** The records written by line 59. *)
Definition is_probabilistic (r : LogRecord) : bool :=
  has_level ERROR r && prefix "❌ ERROR [" (message r).

Definition count_probabilistic (log : list LogRecord) : nat :=
  List.length (filter is_probabilistic log).

(** The ERROR records that are not written by line 59: those of lines
    65-72. *)
Definition is_fixed (r : LogRecord) : bool :=
  has_level ERROR r && negb (prefix "❌ ERROR [" (message r)).

Definition count_fixed (log : list LogRecord) : nat :=
  List.length (filter is_fixed log).

(** The records appended to the log between two worlds. *)
Definition emitted (w w' : World) (recs : list LogRecord) : Prop :=
  log_output w' = (log_output w ++ recs)%list.

(** ** What one invocation does, policy by policy *)

(** The guard of line 46 for the incremented counter [n]. *)
Definition crash_limit_reached (cfg : Config) (n : Z) : bool :=
  (CRASH_AFTER cfg >? 0) && (n >=? CRASH_AFTER cfg).

Definition crash_record (n : Z) : LogRecord :=
  mkLog CRITICAL ("💥 FATAL: Crash limit reached after " ++ str n ++ " requests!").

Definition leak_record (l : Z) : LogRecord :=
  mkLog WARNING ("⚠️  Memory leak: " ++ str (l * 10000) ++ " items allocated").

Definition probabilistic_record (n : Z) (error_msg : string) : LogRecord :=
  mkLog ERROR ("❌ ERROR [" ++ str n ++ "]: " ++ error_msg).

(** Lines 51-54: the leak after the step, and what the step logs. *)
Definition leak_after (cfg : Config) (leak : list (list Z)) : list (list Z) :=
  if OOM_TRIGGER cfg then (leak ++ [list_times 0 10000])%list else leak.

Definition leak_records (cfg : Config) (leak : list (list Z)) : list LogRecord :=
  if OOM_TRIGGER cfg then
    if len (leak ++ [list_times 0 10000])%list mod 10 =? 0
    then [leak_record (len (leak ++ [list_times 0 10000])%list)]
    else []
  else [].

(** Lines 57-59. *)
Definition draw_succeeds (cfg : Config) (rnd : Random) : bool :=
  SFltb (next_random rnd) (ERROR_RATE cfg).

Definition probabilistic_records (cfg : Config) (rnd : Random) (n : Z) : list LogRecord :=
  if draw_succeeds cfg rnd
  then [probabilistic_record n (random_choice rnd ERROR_MESSAGES)]
  else [].

(** Lines 61-62. *)
Definition panics (cfg : Config) (rnd : Random) : bool :=
  draw_succeeds cfg rnd && (ERROR_TYPE cfg =? "panic")%string.

(** Lines 65-72. *)
Definition fixed_records (cfg : Config) : list LogRecord :=
  if (ERROR_TYPE cfg =? "import-error")%string then
    [mkLog ERROR
       ("❌ ImportError: Failed to import required module " ++ dq ++ "database_connector" ++ dq)]
  else if (ERROR_TYPE cfg =? "db-error")%string then
    [mkLog ERROR "❌ DatabaseError: Connection pool exhausted, max connections: 100"]
  else if (ERROR_TYPE cfg =? "api-error")%string then
    [mkLog ERROR "❌ APIError: Upstream service returned 503 Service Unavailable"]
  else if (ERROR_TYPE cfg =? "disk-full")%string then
    [mkLog ERROR
       ("❌ IOError: [Errno 28] No space left on device: " ++ dq ++ "/var/log/app.log" ++ dq)]
  else [].

(** The WARNING records of a log, oldest first. *)
Definition warnings (log : list LogRecord) : list LogRecord :=
  filter (has_level WARNING) log.

(** The total number of units held by the leak. *)
Definition leaked_units (leak : list (list Z)) : Z := len (List.concat leak).

(** The warnings of [k] successive appends to a leak of [l] blocks: one for
    every append that makes the number of blocks a multiple of 10. *)
Fixpoint leak_warnings (l : Z) (k : nat) : list LogRecord :=
  match k with
  | O => []
  | S k' =>
      ((if (l + 1) mod 10 =? 0 then [leak_record (l + 1)] else [])
         ++ leak_warnings (l + 1) k')%list
  end.

(** ** The background logger *)

Definition status_record (n : Z) : LogRecord :=
  mkLog INFO ("📈 Status: " ++ str n ++ " requests processed").

(** The first [List.length rnds] turns of the [while True] loop of
    [background_logger()] (lines 106-109), one element of [rnds] per turn.
    The loop has no exit of its own: [Return tt] says that it is still going
    after these turns, [Raise e] that the exception [e] of some turn ended
    it.  [time.sleep(5)] does not touch the world. *)
Fixpoint background_logger (cfg : Config) (rnds : list Random) : Prog unit :=
  match rnds with
  | [] => ret tt
  | rnd :: rest => background_tick cfg rnd ;; background_logger cfg rest
  end.

(** The INFO records of a log, oldest first. *)
Definition infos (log : list LogRecord) : list LogRecord :=
  filter (has_level INFO) log.

(** The status lines for the counter values [n + 1], ..., [n + k]. *)
Definition status_records (n : Z) (k : nat) : list LogRecord :=
  map (fun i => status_record (n + Z.of_nat i)) (seq 1 k).

(** ** Reading the configuration (lines 20 and 23) *)

(** [os.getenv(key, default)] over an environment. *)
Definition os_getenv (environ : string -> option string) (key default : string) : string :=
  match environ key with
  | Some v => v
  | None => default
  end.

(** [str.lower()] on ASCII text: the letters A-Z move to a-z, every other
    character stays. *)
Definition ascii_lower (c : ascii) : ascii :=
  if ((65 <=? nat_of_ascii c) && (nat_of_ascii c <=? 90))%nat
  then ascii_of_nat (nat_of_ascii c + 32)
  else c.

Fixpoint str_lower (s : string) : string :=
  match s with
  | EmptyString => EmptyString
  | String c rest => String (ascii_lower c) (str_lower rest)
  end.

Fixpoint ascii_only (s : string) : bool :=
  match s with
  | EmptyString => true
  | String c rest => (nat_of_ascii c <? 128)%nat && ascii_only rest
  end.

(** [ERROR_TYPE = os.getenv('ERROR_TYPE', 'none')] *)
Definition read_ERROR_TYPE (environ : string -> option string) : string :=
  os_getenv environ "ERROR_TYPE" "none".

(** [OOM_TRIGGER = os.getenv('OOM_TRIGGER', 'false').lower() == 'true'] *)
Definition read_OOM_TRIGGER (environ : string -> option string) : bool :=
  (str_lower (os_getenv environ "OOM_TRIGGER" "false") =? "true")%string.

(** ** Relations between worlds *)

(** Nothing is taken away: the counter has not gone down, and the leak, the
    log and the draws of [w] are initial segments of those of [w']. *)
Definition grows (w w' : World) : Prop :=
  request_count w <= request_count w'
  /\ (exists blocks, memory_leak w' = (memory_leak w ++ blocks)%list)
  /\ (exists recs, log_output w' = (log_output w ++ recs)%list)
  /\ (exists us, drawn w' = (drawn w ++ us)%list).

(** Every block of the leak is [[0] * 10000]. *)
Definition uniform_blocks (leak : list (list Z)) : Prop :=
  Forall (fun blk => blk = list_times 0 10000) leak.

(** Each warning in the log names a multiple of 10 that the number of
    blocks has reached. *)
Definition warnings_tell_blocks (w : World) : Prop :=
  Forall (fun r => exists l, r = leak_record l /\ l mod 10 = 0 /\ 0 < l <= len (memory_leak w))
         (warnings (log_output w)).

(** [ERROR_TYPE] is one of the four tags of lines 65-72. *)
Definition has_fixed_line (cfg : Config) : bool :=
  existsb (String.eqb (ERROR_TYPE cfg)) ["import-error"; "db-error"; "api-error"; "disk-full"].

(** The body [index] hands to [jsonify] when the counter is [n]. *)
Definition index_body (cfg : Config) (n : Z) : list (string * JValue) :=
  [("message", JString "Python service running");
   ("requests", JInt n);
   ("error_type", JString (ERROR_TYPE cfg));
   ("error_rate", JFloat (ERROR_RATE cfg))].

(** ** Sample configurations and random values *)

(** [random.random()] returns 0.5, [random.choice] takes the entry at index 3. *)
Definition half : Random := mkRandom (S754_finite false 4503599627370496 (-53)) 3.

Definition cfg_quiet : Config := mkConfig "none" float_zero 0 false.
Definition cfg_negative : Config := mkConfig "none" float_zero (-3) false.
Definition cfg_always_crash_first : Config := mkConfig "none" float_one 1 false.
Definition cfg_always : Config := mkConfig "api-error" float_one 0 false.
Definition cfg_panic_leak : Config := mkConfig "panic" float_one 0 true.
Definition cfg_leak : Config := mkConfig "none" float_zero 0 true.
Definition cfg_db_error : Config := mkConfig "db-error" float_zero 0 false.
Definition cfg_unhealthy : Config := mkConfig "unhealthy" float_zero 0 false.
Definition cfg_not_ready : Config := mkConfig "not-ready" float_zero 0 false.
Definition cfg_nan : Config := mkConfig "none" S754_nan 0 false.
Definition cfg_negative_rate : Config :=
  mkConfig "none" (S754_finite true 4503599627370496 (-53)) 0 false.
Definition cfg_rate_five : Config :=
  mkConfig "none" (S754_finite false 5629499534213120 (-50)) 0 false.

(** An environment in which only [OOM_TRIGGER=True] is set. *)
Definition environ_oom (key : string) : option string :=
  if (key =? "OOM_TRIGGER")%string then Some "True" else None.

Arguments str : simpl never.
Arguments list_times : simpl never.

(** *** The crash branch *)

Lemma simulate_error_crash cfg rnd w :
  crash_limit_reached cfg (request_count w + 1) = true ->
  simulate_error cfg rnd w =
    (Raise (SystemExit 1),
     mkWorld (request_count w + 1) (memory_leak w)
             (log_output w ++ [crash_record (request_count w + 1)])
             (drawn w)).
Proof.
  unfold crash_limit_reached. intros Hg.
  unfold simulate_error, bind, incr_request_count, get_request_count. cbn.
  rewrite Hg. reflexivity.
Qed.

(** *** The other branch *)

Lemma simulate_error_no_crash cfg rnd w :
  crash_limit_reached cfg (request_count w + 1) = false ->
  simulate_error cfg rnd w =
    (if panics cfg rnd
     then Raise (Exception (random_choice rnd ERROR_MESSAGES))
     else Return tt,
     mkWorld (request_count w + 1)
             (leak_after cfg (memory_leak w))
             (log_output w
                ++ leak_records cfg (memory_leak w)
                ++ probabilistic_records cfg rnd (request_count w + 1)
                ++ (if panics cfg rnd then [] else fixed_records cfg))
             (drawn w ++ [next_random rnd])).
Proof.
  unfold crash_limit_reached. intros Hg.
  unfold simulate_error, bind, incr_request_count, get_request_count. cbn.
  rewrite Hg. cbn.
  unfold leak_after, leak_records, probabilistic_records, panics, draw_succeeds,
    fixed_records, when, bind, memory_leak_append, len_memory_leak, logging, ret, raise,
    random_random.
  destruct (OOM_TRIGGER cfg); cbn;
    [ destruct (len (memory_leak w ++ [list_times 0 10000]) mod 10 =? 0); cbn | ];
    (destruct (SFltb (next_random rnd) (ERROR_RATE cfg)); cbn;
     [ destruct (ERROR_TYPE cfg =? "panic")%string; cbn | ];
     repeat match goal with
            | |- context [String.eqb (ERROR_TYPE cfg) ?s] =>
                destruct (String.eqb (ERROR_TYPE cfg) s); cbn
            end;
     rewrite <- ?app_assoc, ?app_nil_r; reflexivity).
Qed.

(** ** Counting records *)

Lemma count_level_app l (a b : list LogRecord) :
  count_level l (a ++ b) = (count_level l a + count_level l b)%nat.
Proof. unfold count_level. rewrite filter_app, length_app. reflexivity. Qed.

Lemma count_probabilistic_app (a b : list LogRecord) :
  count_probabilistic (a ++ b) = (count_probabilistic a + count_probabilistic b)%nat.
Proof. unfold count_probabilistic. rewrite filter_app, length_app. reflexivity. Qed.

Lemma leak_records_level cfg leak l :
  l <> WARNING -> count_level l (leak_records cfg leak) = 0%nat.
Proof.
  intros Hl. unfold leak_records.
  destruct (OOM_TRIGGER cfg); [ | reflexivity ].
  destruct (_ =? 0); [ | reflexivity ].
  destruct l; try reflexivity. contradiction.
Qed.

Lemma probabilistic_records_level cfg rnd n l :
  l <> ERROR -> count_level l (probabilistic_records cfg rnd n) = 0%nat.
Proof.
  intros Hl. unfold probabilistic_records.
  destruct (draw_succeeds cfg rnd); [ | reflexivity ].
  destruct l; try reflexivity. contradiction.
Qed.

Lemma fixed_records_level cfg l :
  l <> ERROR -> count_level l (fixed_records cfg) = 0%nat.
Proof.
  intros Hl. unfold fixed_records.
  repeat match goal with
         | |- context [String.eqb (ERROR_TYPE cfg) ?s] =>
             destruct (String.eqb (ERROR_TYPE cfg) s)
         end;
    try reflexivity; destruct l; try reflexivity; contradiction.
Qed.

(** ** One invocation: counter, completion, fatal records *)

Lemma crash_limit_reached_spec cfg n :
  crash_limit_reached cfg n = true <-> 0 < CRASH_AFTER cfg <= n.
Proof.
  unfold crash_limit_reached.
  rewrite andb_true_iff, Z.gtb_ltb, Z.geb_leb, Z.ltb_lt, Z.leb_le. tauto.
Qed.

Lemma crash_limit_not_reached_spec cfg n :
  crash_limit_reached cfg n = false <-> CRASH_AFTER cfg <= 0 \/ n < CRASH_AFTER cfg.
Proof.
  unfold crash_limit_reached.
  rewrite andb_false_iff, Z.gtb_ltb, Z.geb_leb, Z.ltb_ge, Z.leb_gt. tauto.
Qed.

Lemma simulate_error_request_count cfg rnd w :
  request_count (snd (simulate_error cfg rnd w)) = request_count w + 1.
Proof.
  destruct (crash_limit_reached cfg (request_count w + 1)) eqn:Hg.
  - rewrite simulate_error_crash by assumption. reflexivity.
  - rewrite simulate_error_no_crash by assumption. reflexivity.
Qed.

Lemma simulate_error_exits cfg rnd w :
  exits (fst (simulate_error cfg rnd w)) = crash_limit_reached cfg (request_count w + 1).
Proof.
  destruct (crash_limit_reached cfg (request_count w + 1)) eqn:Hg.
  - rewrite simulate_error_crash by assumption. reflexivity.
  - rewrite simulate_error_no_crash by assumption. cbn.
    destruct (panics cfg rnd); reflexivity.
Qed.

Lemma simulate_error_critical cfg rnd w :
  crash_limit_reached cfg (request_count w + 1) = false ->
  count_level CRITICAL (log_output (snd (simulate_error cfg rnd w)))
  = count_level CRITICAL (log_output w).
Proof.
  intros Hg. rewrite simulate_error_no_crash by assumption. cbn [snd log_output].
  rewrite !count_level_app.
  rewrite leak_records_level, probabilistic_records_level by discriminate.
  destruct (panics cfg rnd);
    [ | rewrite fixed_records_level by discriminate ]; cbn; lia.
Qed.

(** ** Runs in which the crash policy stays silent *)

Lemma invocations_below_limit cfg rnds :
  forall w,
    (CRASH_AFTER cfg <= 0 \/ request_count w + len rnds < CRASH_AFTER cfg) ->
    exists cs w',
      invocations cfg rnds w = (cs, w')
      /\ List.length cs = List.length rnds
      /\ Forall survives cs
      /\ request_count w' = request_count w + len rnds
      /\ count_level CRITICAL (log_output w') = count_level CRITICAL (log_output w).
Proof.
  unfold len. induction rnds as [ | rnd rest IH ]; intros w Hlim.
  - exists [], w. cbn. repeat split; try constructor; lia.
  - assert (Hg : crash_limit_reached cfg (request_count w + 1) = false).
    { apply crash_limit_not_reached_spec. cbn [List.length] in Hlim. lia. }
    pose proof (simulate_error_exits cfg rnd w) as Hex.
    pose proof (simulate_error_request_count cfg rnd w) as Hrc.
    pose proof (simulate_error_critical cfg rnd w Hg) as Hcr.
    cbn [invocations].
    destruct (simulate_error cfg rnd w) as [c w1]. cbn [fst snd] in *.
    rewrite Hg in Hex.
    destruct (IH w1) as (cs & w' & Hrun & Hlen & Hall & Hcount & Hcrit).
    { cbn [List.length] in Hlim. lia. }
    rewrite Hrun. exists (c :: cs), w'.
    repeat split.
    + cbn. lia.
    + constructor; assumption.
    + cbn [List.length]. lia.
    + congruence.
Qed.

(** ** Runs that reach the crash limit *)

(** Once the guard of line 46 holds it holds for good, and every
    invocation raises [SystemExit(1)] after one more CRITICAL record. *)
Lemma invocations_past_limit cfg rnds :
  forall w,
    crash_limit_reached cfg (request_count w + 1) = true ->
    exists w',
      invocations cfg rnds w = (repeat (Raise (SystemExit 1)) (List.length rnds), w')
      /\ request_count w' = request_count w + len rnds
      /\ count_level CRITICAL (log_output w')
         = (count_level CRITICAL (log_output w) + List.length rnds)%nat.
Proof.
  unfold len. induction rnds as [ | rnd rest IH ]; intros w Hg.
  - exists w. cbn. repeat split; lia.
  - cbn [invocations]. rewrite simulate_error_crash by assumption.
    match goal with
    | |- context [invocations cfg rest ?w1] => destruct (IH w1) as (w' & Hrun & Hrc & Hcrit)
    end.
    { cbn [request_count]. apply crash_limit_reached_spec.
      apply crash_limit_reached_spec in Hg. lia. }
    rewrite Hrun. exists w'. cbn [request_count log_output] in Hrc, Hcrit.
    rewrite count_level_app in Hcrit. cbn in Hcrit.
    split; [ reflexivity | ]. split; cbn [List.length]; lia.
Qed.

Lemma invocations_reach_limit cfg rnds :
  forall w,
    0 < CRASH_AFTER cfg ->
    request_count w < CRASH_AFTER cfg <= request_count w + len rnds ->
    exists pre w',
      invocations cfg rnds w
      = (pre ++ repeat (Raise (SystemExit 1))
                  (Z.to_nat (request_count w + len rnds - CRASH_AFTER cfg + 1)), w')%list
      /\ len pre = CRASH_AFTER cfg - request_count w - 1
      /\ Forall survives pre
      /\ request_count w' = request_count w + len rnds
      /\ count_level CRITICAL (log_output w')
         = (count_level CRITICAL (log_output w)
            + Z.to_nat (request_count w + len rnds - CRASH_AFTER cfg + 1))%nat.
Proof.
  unfold len. induction rnds as [ | rnd rest IH ]; intros w Hpos Hlim.
  - cbn in Hlim. lia.
  - destruct (crash_limit_reached cfg (request_count w + 1)) eqn:Hg.
    + destruct (invocations_past_limit cfg (rnd :: rest) w Hg) as (w' & Hrun & Hrc & Hcrit).
      apply crash_limit_reached_spec in Hg. unfold len in Hrc.
      replace (Z.to_nat (request_count w + Z.of_nat (List.length (rnd :: rest))
                         - CRASH_AFTER cfg + 1))
        with (List.length (rnd :: rest)) by lia.
      exists [], w'. cbn [app]. split; [ exact Hrun | ].
      repeat split; try constructor; try assumption. cbn. lia.
    + pose proof (simulate_error_exits cfg rnd w) as Hex.
      pose proof (simulate_error_request_count cfg rnd w) as Hrc.
      pose proof (simulate_error_critical cfg rnd w Hg) as Hcr.
      rewrite Hg in Hex.
      apply crash_limit_not_reached_spec in Hg.
      cbn [invocations].
      destruct (simulate_error cfg rnd w) as [c w1]. cbn [fst snd] in *.
      destruct (IH w1 Hpos) as (pre & w' & Hrun & Hlen & Hall & Hcount & Hcrit).
      { cbn [List.length] in Hlim. lia. }
      rewrite Hrun. exists (c :: pre), w'.
      replace (request_count w1 + Z.of_nat (List.length rest))
        with (request_count w + Z.of_nat (List.length (rnd :: rest))) in *
        by (cbn [List.length]; lia).
      repeat split.
      * cbn [List.length]. lia.
      * constructor; assumption.
      * assumption.
      * congruence.
Qed.

(** ** The crash-after policy *)

(** C1.  What the code does where the claim expects the process to end
    once.  With [CRASH_AFTER = 1], each of three successive [GET /] requests
    logs the CRITICAL record and raises [SystemExit(1)], no later step of
    the engine running; the exception ends the thread of the request, and
    afterwards the counter stands at 3, the log holds three CRITICAL records
    and [GET /health] still answers.  In general, with [CRASH_AFTER = N > 0],
    a run of [n >= N] invocations from the initial state has no
    [SystemExit] in its first [N - 1] invocations and one, with its
    CRITICAL record, in every invocation from the [N]th on: [n - N + 1] of
    them, not one. *)
Theorem crash_limit_fires_on_every_later_call (r1 r2 r3 : Random) :
  (let cfg := mkConfig "none" float_zero 1 false in
   let w1 := mkWorld 1 [] [crash_record 1] [] in
   let w2 := mkWorld 2 [] [crash_record 1; crash_record 2] [] in
   let w3 := mkWorld 3 [] [crash_record 1; crash_record 2; crash_record 3] [] in
   index cfg r1 initial = (Raise (SystemExit 1), w1)
   /\ index cfg r2 w1 = (Raise (SystemExit 1), w2)
   /\ index cfg r3 w2 = (Raise (SystemExit 1), w3)
   /\ invocations cfg [r1; r2; r3] initial
      = ([Raise (SystemExit 1); Raise (SystemExit 1); Raise (SystemExit 1)], w3)
   /\ count_level CRITICAL (log_output w3) = 3%nat
   /\ health cfg w3
      = (Return (jsonify [("status", JString "healthy"); ("requests", JInt 3)]), w3))
  /\ (forall cfg rnds,
         0 < CRASH_AFTER cfg <= len rnds ->
         exists pre w',
           invocations cfg rnds initial
           = (pre ++ repeat (Raise (SystemExit 1))
                       (Z.to_nat (len rnds - CRASH_AFTER cfg + 1)), w')%list
           /\ len pre = CRASH_AFTER cfg - 1
           /\ Forall survives pre
           /\ request_count w' = len rnds
           /\ count_level CRITICAL (log_output w')
              = Z.to_nat (len rnds - CRASH_AFTER cfg + 1)).
Proof.
  split.
  - repeat split.
  - intros cfg rnds Hlim.
    destruct (invocations_reach_limit cfg rnds initial) as (pre & w' & Hrun & Hpre & Hall & Hrc & Hcrit);
      [ lia | cbn; lia | ].
    cbn [initial request_count log_output] in *.
    rewrite Z.add_0_l in *. rewrite Z.sub_0_r in Hpre.
    exists pre, w'. repeat split; assumption.
Qed.

(** C2.  With [CRASH_AFTER = 0] no invocation raises [SystemExit], whether
    made directly, by [GET /] or by the background logger, and a run of any
    length goes through all of its invocations without a CRITICAL record. *)
Theorem crash_after_zero_never_exits (cfg : Config) :
  CRASH_AFTER cfg = 0 ->
  (forall rnd w, survives (fst (simulate_error cfg rnd w)))
  /\ (forall rnd w, survives (fst (index cfg rnd w)))
  /\ (forall rnd w, survives (fst (background_tick cfg rnd w)))
  /\ (forall rnds w,
         exists cs w',
           invocations cfg rnds w = (cs, w')
           /\ List.length cs = List.length rnds
           /\ Forall survives cs
           /\ request_count w' = request_count w + len rnds
           /\ count_level CRITICAL (log_output w')
              = count_level CRITICAL (log_output w)).
Proof.
  intros H0.
  assert (Hstep : forall rnd w, survives (fst (simulate_error cfg rnd w))).
  { intros rnd w. unfold survives. rewrite simulate_error_exits.
    apply crash_limit_not_reached_spec. lia. }
  split; [ exact Hstep | split; [ | split ] ].
  - intros rnd w. specialize (Hstep rnd w). unfold survives, index, bind in *.
    destruct (simulate_error cfg rnd w) as [[ [] | e ] w1]; cbn in *; [ reflexivity | exact Hstep ].
  - intros rnd w. specialize (Hstep rnd w). unfold survives, background_tick, bind in *.
    destruct (simulate_error cfg rnd w) as [[ [] | e ] w1]; cbn in *; [ reflexivity | exact Hstep ].
  - intros rnds w. apply invocations_below_limit. lia.
Qed.

Lemma crash_after_zero_never_exits_witness :
  CRASH_AFTER cfg_quiet = 0
  /\ survives (fst (simulate_error cfg_quiet half initial))
  /\ survives (fst (index cfg_quiet half initial)).
Proof.
  split; [ reflexivity | ].
  destruct (crash_after_zero_never_exits cfg_quiet) as (Hstep & Hindex & _);
    [ reflexivity | ].
  split; [ apply Hstep | apply Hindex ].
Defined.

(** C10.  With [CRASH_AFTER <= 0], negative values included, the guard of
    line 46 is false for every value of the counter: no invocation logs the
    crash record or raises [SystemExit], in any run. *)
Theorem crash_after_nonpositive_disabled (cfg : Config) :
  CRASH_AFTER cfg <= 0 ->
  (forall n, crash_limit_reached cfg n = false)
  /\ (forall rnd w,
         survives (fst (simulate_error cfg rnd w))
         /\ count_level CRITICAL (log_output (snd (simulate_error cfg rnd w)))
            = count_level CRITICAL (log_output w))
  /\ (forall rnds w,
         exists cs w',
           invocations cfg rnds w = (cs, w')
           /\ List.length cs = List.length rnds
           /\ Forall survives cs
           /\ count_level CRITICAL (log_output w')
              = count_level CRITICAL (log_output w)).
Proof.
  intros Hle.
  assert (Hg : forall n, crash_limit_reached cfg n = false)
    by (intros n; apply crash_limit_not_reached_spec; lia).
  split; [ exact Hg | split ].
  - intros rnd w. split.
    + unfold survives. rewrite simulate_error_exits. apply Hg.
    + apply simulate_error_critical, Hg.
  - intros rnds w.
    destruct (invocations_below_limit cfg rnds w) as (cs & w' & Hrun & Hlen & Hall & _ & Hcrit).
    { lia. }
    exists cs, w'. repeat split; assumption.
Qed.

Lemma crash_after_nonpositive_disabled_witness :
  CRASH_AFTER cfg_negative = -3
  /\ survives (fst (simulate_error cfg_negative half initial))
  /\ crash_limit_reached cfg_negative 1 = false.
Proof.
  split; [ reflexivity | ].
  destruct (crash_after_nonpositive_disabled cfg_negative) as (Hguard & Hstep & _);
    [ cbn; lia | ].
  split; [ apply Hstep | apply Hguard ].
Defined.

(** ** The request counter *)

(** C3.  An invocation of the engine adds exactly 1 to [request_count],
    however it completes; so do [GET /] and a tick of the background logger,
    which invoke it once; [GET /health], [GET /ready] and [GET /metrics]
    leave the whole state as it is. *)
Theorem request_count_plus_one (cfg : Config) (rnd : Random) (now : string) (w : World) :
  request_count (snd (simulate_error cfg rnd w)) = request_count w + 1
  /\ request_count (snd (index cfg rnd w)) = request_count w + 1
  /\ request_count (snd (background_tick cfg rnd w)) = request_count w + 1
  /\ snd (health cfg w) = w
  /\ snd (ready cfg w) = w
  /\ snd (metrics cfg now w) = w.
Proof.
  pose proof (simulate_error_request_count cfg rnd w) as Hrc.
  split; [ exact Hrc | ].
  split; [ | split; [ | split; [ | split ] ] ].
  - unfold index, bind.
    destruct (simulate_error cfg rnd w) as [[ [] | e ] w1]; cbn in *; exact Hrc.
  - unfold background_tick, bind.
    destruct (simulate_error cfg rnd w) as [[ [] | e ] w1]; cbn in *; exact Hrc.
  - unfold health. destruct (String.eqb _ _); reflexivity.
  - unfold ready. destruct (String.eqb _ _); reflexivity.
  - reflexivity.
Qed.

(** ** The probabilistic policy *)

Lemma draw_below_one (x : float) :
  in_unit_interval x = true -> SFltb x float_one = true.
Proof.
  unfold in_unit_interval. intros H.
  apply andb_true_iff in H. apply H.
Qed.

Lemma draw_not_below_zero (x : float) :
  in_unit_interval x = true -> SFltb x float_zero = false.
Proof.
  unfold in_unit_interval. intros H.
  apply andb_true_iff in H. destruct H as [H _].
  apply andb_true_iff in H. destruct H as [_ H].
  destruct x as [ s | s | | s m e ]; try destruct s; try reflexivity; discriminate H.
Qed.

Lemma prefix_append (p x : string) : prefix p (p ++ x) = true.
Proof.
  induction p as [ | a p IH ]; cbn.
  - destruct x; reflexivity.
  - destruct (ascii_dec a a) as [ _ | Hne ]; [ exact IH | contradiction ].
Qed.

Lemma is_probabilistic_record n msg :
  is_probabilistic (probabilistic_record n msg) = true.
Proof.
  unfold is_probabilistic, probabilistic_record. cbn [message levelname has_level Level_eqb andb].
  apply prefix_append.
Qed.

Lemma leak_records_not_probabilistic cfg leak :
  count_probabilistic (leak_records cfg leak) = 0%nat.
Proof.
  unfold leak_records.
  destruct (OOM_TRIGGER cfg); [ | reflexivity ].
  destruct (_ =? 0); reflexivity.
Qed.

Lemma fixed_records_not_probabilistic cfg :
  count_probabilistic (fixed_records cfg) = 0%nat.
Proof.
  unfold fixed_records.
  repeat match goal with
         | |- context [String.eqb (ERROR_TYPE cfg) ?s] =>
             destruct (String.eqb (ERROR_TYPE cfg) s)
         end; reflexivity.
Qed.

Lemma count_probabilistic_records cfg rnd n :
  count_probabilistic (probabilistic_records cfg rnd n)
  = if draw_succeeds cfg rnd then 1%nat else 0%nat.
Proof.
  unfold probabilistic_records, count_probabilistic.
  destruct (draw_succeeds cfg rnd); [ | reflexivity ].
  cbn [filter]. rewrite is_probabilistic_record. reflexivity.
Qed.

(** The number of line-59 records one invocation adds. *)
Lemma simulate_error_probabilistic cfg rnd w :
  count_probabilistic (log_output (snd (simulate_error cfg rnd w)))
  = (count_probabilistic (log_output w)
     + if crash_limit_reached cfg (request_count w + 1) then 0
       else if draw_succeeds cfg rnd then 1 else 0)%nat.
Proof.
  destruct (crash_limit_reached cfg (request_count w + 1)) eqn:Hg.
  - rewrite simulate_error_crash by assumption. cbn [snd log_output].
    rewrite count_probabilistic_app. reflexivity.
  - rewrite simulate_error_no_crash by assumption. cbn [snd log_output].
    rewrite !count_probabilistic_app.
    rewrite leak_records_not_probabilistic, count_probabilistic_records.
    destruct (panics cfg rnd);
      [ | rewrite fixed_records_not_probabilistic ]; cbn; lia.
Qed.

(** C4, as amended.  With [ERROR_RATE = 0.0] no invocation writes a
    line-59 record, whatever [random.random()] returns in [0.0, 1.0).  With
    [ERROR_RATE = 1.0] every invocation on which the crash policy does not
    fire writes exactly one; an invocation on which it fires writes none. *)
Theorem probabilistic_policy_at_rate_zero_and_one (cfg : Config) (rnd : Random) (w : World) :
  in_unit_interval (next_random rnd) = true ->
  (ERROR_RATE cfg = float_zero ->
     count_probabilistic (log_output (snd (simulate_error cfg rnd w)))
     = count_probabilistic (log_output w))
  /\ (ERROR_RATE cfg = float_one ->
      crash_limit_reached cfg (request_count w + 1) = false ->
      exists error_msg,
        emitted w (snd (simulate_error cfg rnd w))
          (leak_records cfg (memory_leak w)
             ++ [probabilistic_record (request_count w + 1) error_msg]
             ++ (if panics cfg rnd then [] else fixed_records cfg))
        /\ count_probabilistic (log_output (snd (simulate_error cfg rnd w)))
           = (count_probabilistic (log_output w) + 1)%nat)
  /\ (ERROR_RATE cfg = float_one ->
      crash_limit_reached cfg (request_count w + 1) = true ->
      count_probabilistic (log_output (snd (simulate_error cfg rnd w)))
      = count_probabilistic (log_output w)).
Proof.
  intros Hdraw.
  pose proof (simulate_error_probabilistic cfg rnd w) as Hcount.
  split; [ | split ].
  - intros Hrate. rewrite Hcount. unfold draw_succeeds.
    rewrite Hrate, (draw_not_below_zero _ Hdraw).
    destruct (crash_limit_reached _ _); lia.
  - intros Hrate Hg.
    assert (Hd : draw_succeeds cfg rnd = true)
      by (unfold draw_succeeds; rewrite Hrate; apply draw_below_one, Hdraw).
    exists (random_choice rnd ERROR_MESSAGES). split.
    + unfold emitted. rewrite simulate_error_no_crash by assumption.
      cbn [snd log_output]. unfold probabilistic_records. rewrite Hd. reflexivity.
    + rewrite Hcount, Hg, Hd. reflexivity.
  - intros _ Hg. rewrite Hcount, Hg. lia.
Qed.

Lemma probabilistic_policy_at_rate_zero_and_one_witness :
  in_unit_interval (next_random half) = true
  /\ count_probabilistic (log_output (snd (simulate_error cfg_always half initial))) = 1%nat
  /\ count_probabilistic (log_output (snd (simulate_error cfg_quiet half initial))) = 0%nat.
Proof.
  split; [ reflexivity | ].
  destruct (probabilistic_policy_at_rate_zero_and_one cfg_always half initial eq_refl)
    as (_ & Hone & _).
  destruct (probabilistic_policy_at_rate_zero_and_one cfg_quiet half initial eq_refl)
    as (Hzero & _).
  split.
  - destruct (Hone eq_refl eq_refl) as (error_msg & _ & Hcount). exact Hcount.
  - exact (Hzero eq_refl).
Defined.

(** C4 as first stated fails: with [ERROR_RATE = 1.0] and [CRASH_AFTER = 1]
    the first invocation exits at line 48 and writes no line-59 record. *)
Lemma rate_one_crashing_invocation_logs_no_error :
  ERROR_RATE cfg_always_crash_first = float_one
  /\ in_unit_interval (next_random half) = true
  /\ simulate_error cfg_always_crash_first half initial
     = (Raise (SystemExit 1), mkWorld 1 [] [crash_record 1] [])
  /\ count_probabilistic
       (log_output (snd (simulate_error cfg_always_crash_first half initial))) = 0%nat
  /\ ~ (forall cfg rnd w,
           ERROR_RATE cfg = float_one ->
           in_unit_interval (next_random rnd) = true ->
           count_probabilistic (log_output (snd (simulate_error cfg rnd w)))
           = (count_probabilistic (log_output w) + 1)%nat).
Proof.
  split; [ reflexivity | ]. split; [ reflexivity | ].
  split; [ reflexivity | ]. split; [ reflexivity | ].
  intros Hall.
  specialize (Hall cfg_always_crash_first half initial eq_refl eq_refl).
  discriminate Hall.
Qed.

(** ** The panic path *)

Lemma random_choice_in (rnd : Random) (seq : list string) :
  (randbelow rnd < List.length seq)%nat -> In (random_choice rnd seq) seq.
Proof. intros Hlt. unfold random_choice. apply nth_In. exact Hlt. Qed.

Lemma simulate_error_panics cfg rnd w :
  crash_limit_reached cfg (request_count w + 1) = false ->
  panics cfg rnd = true ->
  simulate_error cfg rnd w =
    (Raise (Exception (random_choice rnd ERROR_MESSAGES)),
     mkWorld (request_count w + 1)
             (leak_after cfg (memory_leak w))
             (log_output w
                ++ leak_records cfg (memory_leak w)
                ++ [probabilistic_record (request_count w + 1)
                      (random_choice rnd ERROR_MESSAGES)])
             (drawn w ++ [next_random rnd])).
Proof.
  intros Hg Hp. rewrite simulate_error_no_crash by assumption.
  rewrite Hp. unfold probabilistic_records.
  unfold panics in Hp. apply andb_true_iff in Hp. destruct Hp as [Hd _].
  rewrite Hd, app_nil_r. reflexivity.
Qed.

(** An [Exception] is raised exactly when lines 57 and 61 are reached and
    both tests succeed. *)
Lemma simulate_error_raises_exception cfg rnd w msg :
  fst (simulate_error cfg rnd w) = Raise (Exception msg) ->
  crash_limit_reached cfg (request_count w + 1) = false
  /\ panics cfg rnd = true
  /\ msg = random_choice rnd ERROR_MESSAGES.
Proof.
  intros Hraise.
  destruct (crash_limit_reached cfg (request_count w + 1)) eqn:Hg.
  - rewrite simulate_error_crash in Hraise by assumption. discriminate Hraise.
  - rewrite simulate_error_no_crash in Hraise by assumption. cbn [fst] in Hraise.
    destruct (panics cfg rnd); [ | discriminate Hraise ].
    injection Hraise as Hmsg. auto.
Qed.

(** The draw of line 57 is made exactly when line 48 is not reached. *)
Lemma simulate_error_drawn cfg rnd w :
  drawn (snd (simulate_error cfg rnd w))
  = (drawn w
       ++ if crash_limit_reached cfg (request_count w + 1) then [] else [next_random rnd])%list.
Proof.
  destruct (crash_limit_reached cfg (request_count w + 1)) eqn:Hg.
  - rewrite simulate_error_crash by assumption. cbn [snd drawn].
    rewrite app_nil_r. reflexivity.
  - rewrite simulate_error_no_crash by assumption. reflexivity.
Qed.




(** C9.  When an invocation ends by raising [Exception], the world it
    leaves behind has [request_count] one higher, and the leak one block
    longer if [OOM_TRIGGER] is set (unchanged otherwise); the records logged
    before the [raise] stay logged, and [index] hands the same world on. *)
Theorem panic_keeps_state_changes (cfg : Config) (rnd : Random) (w : World) (msg : string) :
  fst (simulate_error cfg rnd w) = Raise (Exception msg) ->
  request_count (snd (simulate_error cfg rnd w)) = request_count w + 1
  /\ (OOM_TRIGGER cfg = true ->
      memory_leak (snd (simulate_error cfg rnd w))
      = (memory_leak w ++ [list_times 0 10000])%list)
  /\ (OOM_TRIGGER cfg = false ->
      memory_leak (snd (simulate_error cfg rnd w)) = memory_leak w)
  /\ emitted w (snd (simulate_error cfg rnd w))
       (leak_records cfg (memory_leak w)
          ++ [probabilistic_record (request_count w + 1) msg])
  /\ snd (index cfg rnd w) = snd (simulate_error cfg rnd w).
Proof.
  intros Hraise.
  destruct (simulate_error_raises_exception cfg rnd w msg Hraise) as (Hg & Hp & Hmsg).
  pose proof (simulate_error_panics cfg rnd w Hg Hp) as Hrun.
  unfold index, bind, emitted. rewrite Hrun. cbn [fst snd request_count memory_leak log_output].
  subst msg. unfold leak_after.
  repeat split.
  - intros Hoom. rewrite Hoom. reflexivity.
  - intros Hoom. rewrite Hoom. reflexivity.
Qed.

Lemma panic_keeps_state_changes_witness :
  fst (simulate_error cfg_panic_leak half initial)
  = Raise (Exception "AuthenticationError: JWT token expired or invalid")
  /\ request_count (snd (simulate_error cfg_panic_leak half initial)) = 1
  /\ memory_leak (snd (simulate_error cfg_panic_leak half initial)) = [list_times 0 10000].
Proof.
  split; [ reflexivity | ].
  destruct (panic_keeps_state_changes cfg_panic_leak half initial
              "AuthenticationError: JWT token expired or invalid" eq_refl)
    as (Hrc & Hleak & _).
  split; [ exact Hrc | exact (Hleak eq_refl) ].
Defined.

(** ** The memory leak *)

Lemma len_app_one {A : Type} (l : list A) (x : A) : len (l ++ [x]) = len l + 1.
Proof. unfold len. rewrite length_app. cbn. lia. Qed.

Lemma len_list_times {A : Type} (x : A) (n : Z) : 0 <= n -> len (list_times x n) = n.
Proof. intros Hn. unfold len, list_times. rewrite repeat_length. lia. Qed.

Lemma warnings_app (a b : list LogRecord) : warnings (a ++ b) = (warnings a ++ warnings b)%list.
Proof. apply filter_app. Qed.

Lemma warnings_leak_records cfg leak :
  warnings (leak_records cfg leak) = leak_records cfg leak.
Proof.
  unfold leak_records.
  destruct (OOM_TRIGGER cfg); [ | reflexivity ].
  destruct (_ =? 0); reflexivity.
Qed.

Lemma warnings_probabilistic_records cfg rnd n :
  warnings (probabilistic_records cfg rnd n) = [].
Proof. unfold probabilistic_records. destruct (draw_succeeds cfg rnd); reflexivity. Qed.

Lemma warnings_fixed_records cfg : warnings (fixed_records cfg) = [].
Proof.
  unfold fixed_records.
  repeat match goal with
         | |- context [String.eqb (ERROR_TYPE cfg) ?s] =>
             destruct (String.eqb (ERROR_TYPE cfg) s)
         end; reflexivity.
Qed.

Lemma simulate_error_leak cfg rnd w :
  crash_limit_reached cfg (request_count w + 1) = false ->
  memory_leak (snd (simulate_error cfg rnd w)) = leak_after cfg (memory_leak w).
Proof. intros Hg. rewrite simulate_error_no_crash by assumption. reflexivity. Qed.

Lemma simulate_error_warnings cfg rnd w :
  crash_limit_reached cfg (request_count w + 1) = false ->
  warnings (log_output (snd (simulate_error cfg rnd w)))
  = (warnings (log_output w) ++ leak_records cfg (memory_leak w))%list.
Proof.
  intros Hg. rewrite simulate_error_no_crash by assumption. cbn [snd log_output].
  rewrite !warnings_app, warnings_leak_records, warnings_probabilistic_records.
  destruct (panics cfg rnd); [ | rewrite warnings_fixed_records ];
    cbn [warnings filter app]; rewrite ?app_nil_r; reflexivity.
Qed.

Lemma leak_records_oom cfg leak :
  OOM_TRIGGER cfg = true ->
  leak_records cfg leak
  = if (len leak + 1) mod 10 =? 0 then [leak_record (len leak + 1)] else [].
Proof. intros Hoom. unfold leak_records. rewrite Hoom, len_app_one. reflexivity. Qed.

Lemma invocations_leak cfg rnds :
  OOM_TRIGGER cfg = true ->
  forall w,
    (CRASH_AFTER cfg <= 0 \/ request_count w + len rnds < CRASH_AFTER cfg) ->
    exists cs w',
      invocations cfg rnds w = (cs, w')
      /\ memory_leak w'
         = (memory_leak w ++ repeat (list_times 0 10000) (List.length rnds))%list
      /\ warnings (log_output w')
         = (warnings (log_output w)
              ++ leak_warnings (len (memory_leak w)) (List.length rnds))%list.
Proof.
  intros Hoom. unfold len at 1.
  induction rnds as [ | rnd rest IH ]; intros w Hlim.
  - exists [], w. cbn. rewrite !app_nil_r. auto.
  - assert (Hg : crash_limit_reached cfg (request_count w + 1) = false).
    { apply crash_limit_not_reached_spec. cbn [List.length] in Hlim. lia. }
    pose proof (simulate_error_exits cfg rnd w) as Hex.
    pose proof (simulate_error_request_count cfg rnd w) as Hrc.
    pose proof (simulate_error_leak cfg rnd w Hg) as Hleak.
    pose proof (simulate_error_warnings cfg rnd w Hg) as Hwarn.
    rewrite leak_records_oom in Hwarn by assumption.
    unfold leak_after in Hleak. rewrite Hoom in Hleak.
    cbn [invocations].
    destruct (simulate_error cfg rnd w) as [c w1]. cbn [fst snd] in *.
    destruct (IH w1) as (cs & w' & Hrun & Hleak' & Hwarn').
    { cbn [List.length] in Hlim. lia. }
    rewrite Hrun. exists (c :: cs), w'.
    split; [ reflexivity | ]. split.
    + rewrite Hleak', Hleak, <- app_assoc. reflexivity.
    + rewrite Hwarn', Hwarn, Hleak, len_app_one, <- app_assoc. reflexivity.
Qed.

(** One warning per multiple of 10 passed. *)
Lemma leak_warnings_length k :
  forall l, 0 <= l ->
    Z.of_nat (List.length (leak_warnings l k)) = (l + Z.of_nat k) / 10 - l / 10.
Proof.
  induction k as [ | k IH ]; intros l Hl.
  - cbn. rewrite Z.add_0_r. lia.
  - cbn [leak_warnings]. rewrite length_app, Nat2Z.inj_add, IH by lia.
    replace (l + 1 + Z.of_nat k) with (l + Z.of_nat (S k)) by lia.
    destruct ((l + 1) mod 10 =? 0) eqn:Hmod.
    + apply Z.eqb_eq in Hmod. cbn [List.length].
      pose proof (Z.div_mod (l + 1) 10 ltac:(lia)) as H1.
      pose proof (Z.div_mod l 10 ltac:(lia)) as H2.
      pose proof (Z.mod_pos_bound l 10 ltac:(lia)) as H3.
      lia.
    + apply Z.eqb_neq in Hmod. cbn [List.length].
      pose proof (Z.div_mod (l + 1) 10 ltac:(lia)) as H1.
      pose proof (Z.div_mod l 10 ltac:(lia)) as H2.
      pose proof (Z.mod_pos_bound l 10 ltac:(lia)) as H3.
      pose proof (Z.mod_pos_bound (l + 1) 10 ltac:(lia)) as H4.
      lia.
Qed.

(** C6.  With [OOM_TRIGGER] set, an invocation on which the crash policy
    does not fire appends exactly one block of 10000 units to [memory_leak],
    and logs a WARNING, reporting 10000 times the number of blocks, exactly
    when that number has become a multiple of 10.  Hence a run of [k] such
    invocations adds [k] blocks and one warning per multiple of 10 passed,
    and 10 invocations from the initial state leave 10 blocks of 10000 units,
    100000 units in all, and the single warning that reports them. *)
Theorem leak_grows_one_block_per_invocation (cfg : Config) :
  OOM_TRIGGER cfg = true ->
  (forall rnd w,
      crash_limit_reached cfg (request_count w + 1) = false ->
      let w' := snd (simulate_error cfg rnd w) in
      memory_leak w' = (memory_leak w ++ [list_times 0 10000])%list
      /\ len (list_times 0 10000) = 10000
      /\ warnings (log_output w')
         = (warnings (log_output w)
              ++ if len (memory_leak w') mod 10 =? 0
                 then [leak_record (len (memory_leak w'))]
                 else [])%list)
  /\ (forall rnds w,
         CRASH_AFTER cfg <= 0 \/ request_count w + len rnds < CRASH_AFTER cfg ->
         exists cs w',
           invocations cfg rnds w = (cs, w')
           /\ List.length cs = List.length rnds
           /\ memory_leak w'
              = (memory_leak w ++ repeat (list_times 0 10000) (List.length rnds))%list
           /\ len (warnings (log_output w'))
              = len (warnings (log_output w))
                + ((len (memory_leak w) + len rnds) / 10 - len (memory_leak w) / 10))
  /\ (forall rnds,
         List.length rnds = 10%nat ->
         CRASH_AFTER cfg <= 0 \/ 10 < CRASH_AFTER cfg ->
         exists cs w',
           invocations cfg rnds initial = (cs, w')
           /\ List.length cs = 10%nat
           /\ len (memory_leak w') = 10
           /\ Forall (fun blk => len blk = 10000) (memory_leak w')
           /\ leaked_units (memory_leak w') = 100000
           /\ warnings (log_output w')
              = [mkLog WARNING "⚠️  Memory leak: 100000 items allocated"]).
Proof.
  intros Hoom. split; [ | split ].
  - intros rnd w Hg w'. subst w'.
    rewrite simulate_error_warnings, simulate_error_leak by assumption.
    rewrite leak_records_oom by assumption.
    unfold leak_after. rewrite Hoom, len_app_one.
    split; [ reflexivity | ]. split; [ apply len_list_times; lia | reflexivity ].
  - intros rnds w Hlim.
    destruct (invocations_leak cfg rnds Hoom w Hlim) as (cs & w' & Hrun & Hleak & Hwarn).
    destruct (invocations_below_limit cfg rnds w Hlim) as (cs0 & w0 & Hrun0 & Hlen & _).
    rewrite Hrun in Hrun0. injection Hrun0 as <- <-.
    exists cs, w'. repeat split; try assumption.
    rewrite Hwarn. unfold len at 1 2. rewrite length_app, Nat2Z.inj_add.
    rewrite leak_warnings_length by (unfold len; lia). reflexivity.
  - intros rnds Hten Hcrash.
    assert (Hlim : CRASH_AFTER cfg <= 0
                   \/ request_count initial + len rnds < CRASH_AFTER cfg).
    { unfold len. rewrite Hten. cbn. lia. }
    destruct (invocations_leak cfg rnds Hoom initial Hlim) as (cs & w' & Hrun & Hleak & Hwarn).
    destruct (invocations_below_limit cfg rnds initial Hlim) as (cs0 & w0 & Hrun0 & Hlen & _).
    rewrite Hrun in Hrun0. injection Hrun0 as <- <-.
    rewrite Hten in Hleak, Hwarn, Hlen. cbn [initial memory_leak log_output app] in Hleak, Hwarn.
    exists cs, w'. rewrite Hleak, Hwarn.
    split; [ exact Hrun | ]. split; [ exact Hlen | ].
    split; [ reflexivity | ]. split; [ | split ].
    + apply Forall_forall. intros blk Hin. apply repeat_spec in Hin. subst blk.
      apply len_list_times. lia.
    + vm_compute. reflexivity.
    + reflexivity.
Qed.

Lemma leak_grows_one_block_per_invocation_witness :
  exists cs w',
    invocations cfg_leak (repeat half 10) initial = (cs, w')
    /\ len (memory_leak w') = 10
    /\ leaked_units (memory_leak w') = 100000
    /\ List.length (warnings (log_output w')) = 1%nat.
Proof.
  destruct (leak_grows_one_block_per_invocation cfg_leak eq_refl) as (_ & _ & Hten).
  destruct (Hten (repeat half 10) eq_refl) as (cs & w' & Hrun & _ & Hlen & _ & Hunits & Hwarn).
  { left. cbn. lia. }
  exists cs, w'. rewrite Hwarn. repeat split; assumption.
Defined.

(** ** The routes *)

Lemma index_db_error (rnd : Random) (w : World) :
  in_unit_interval (next_random rnd) = true ->
  index (mkConfig "db-error" float_zero 0 false) rnd w =
    (Return (mkResponse 200
               [("message", JString "Python service running");
                ("requests", JInt (request_count w + 1));
                ("error_type", JString "db-error");
                ("error_rate", JFloat float_zero)]),
     mkWorld (request_count w + 1) (memory_leak w)
             (log_output w
                ++ [mkLog ERROR
                      "❌ DatabaseError: Connection pool exhausted, max connections: 100"])
             (drawn w ++ [next_random rnd])).
Proof.
  intros Hdraw. unfold index, bind.
  rewrite simulate_error_no_crash
    by (apply crash_limit_not_reached_spec; left; cbn; lia).
  unfold panics, probabilistic_records, draw_succeeds. cbn [ERROR_RATE].
  rewrite (draw_not_below_zero _ Hdraw). reflexivity.
Qed.

(** C7.  Under [{ERROR_TYPE: "db-error", ERROR_RATE: 0.0, CRASH_AFTER: 0,
    OOM_TRIGGER: false}], three [GET /] requests from the initial state all
    return; the log then holds exactly three records, each the fixed
    db-error line, [request_count] is 3, and the third response is 200 with
    message "Python service running", requests 3, error_type "db-error" and
    error_rate 0.0. *)
Theorem three_requests_with_db_error (r1 r2 r3 : Random) :
  in_unit_interval (next_random r1) = true ->
  in_unit_interval (next_random r2) = true ->
  in_unit_interval (next_random r3) = true ->
  let cfg := mkConfig "db-error" float_zero 0 false in
  let db_line :=
    mkLog ERROR "❌ DatabaseError: Connection pool exhausted, max connections: 100" in
  exists resp1 resp2 w1 w2 w3,
    index cfg r1 initial = (Return resp1, w1)
    /\ index cfg r2 w1 = (Return resp2, w2)
    /\ index cfg r3 w2 =
         (Return (mkResponse 200
                    [("message", JString "Python service running");
                     ("requests", JInt 3);
                     ("error_type", JString "db-error");
                     ("error_rate", JFloat float_zero)]),
          w3)
    /\ log_output w3 = [db_line; db_line; db_line]
    /\ request_count w3 = 3
    /\ memory_leak w3 = [].
Proof.
  intros H1 H2 H3 cfg db_line. subst cfg db_line.
  pose proof (index_db_error r1 initial H1) as E1.
  cbn [initial request_count memory_leak log_output app Z.add Pos.add Pos.succ] in E1.
  match type of E1 with
  | _ = (_, ?w1) => pose proof (index_db_error r2 w1 H2) as E2
  end.
  cbn [request_count memory_leak log_output app Z.add Pos.add Pos.succ] in E2.
  match type of E2 with
  | _ = (_, ?w2) => pose proof (index_db_error r3 w2 H3) as E3
  end.
  cbn [request_count memory_leak log_output app Z.add Pos.add Pos.succ] in E3.
  do 5 eexists.
  split; [ exact E1 | ]. split; [ exact E2 | ]. split; [ exact E3 | ].
  repeat split.
Qed.

Lemma three_requests_with_db_error_witness :
  exists w3,
    snd (index cfg_db_error half
           (snd (index cfg_db_error half (snd (index cfg_db_error half initial))))) = w3
    /\ request_count w3 = 3
    /\ List.length (log_output w3) = 3%nat.
Proof.
  destruct (three_requests_with_db_error half half half eq_refl eq_refl eq_refl)
    as (resp1 & resp2 & w1 & w2 & w3 & Hi1 & Hi2 & Hi3 & Hlog & Hrc & _).
  exists w3. unfold cfg_db_error. rewrite Hi1. cbn [snd]. rewrite Hi2. cbn [snd].
  rewrite Hi3. cbn [snd]. rewrite Hlog, Hrc. repeat split.
Defined.

(** C8.  [GET /metrics] is answered from the current state alone: it
    returns 200 with [requests_total], [error_type] and the timestamp, never
    raises, and leaves [request_count], [memory_leak] and the log as they
    were, so that no policy has run and the next engine invocation behaves
    as if the route had not been called. *)
Theorem metrics_reads_only (cfg : Config) (now : string) (w : World) :
  metrics cfg now w =
    (Return (mkResponse 200
               [("requests_total", JInt (request_count w));
                ("error_type", JString (ERROR_TYPE cfg));
                ("timestamp", JString now)]),
     w)
  /\ request_count (snd (metrics cfg now w)) = request_count w
  /\ memory_leak (snd (metrics cfg now w)) = memory_leak w
  /\ emitted w (snd (metrics cfg now w)) []
  /\ survives (fst (metrics cfg now w))
  /\ (forall rnd, simulate_error cfg rnd (snd (metrics cfg now w)) = simulate_error cfg rnd w).
Proof.
  unfold emitted, survives. cbn [metrics]. rewrite app_nil_r. repeat split.
Qed.

(** * Further properties of the program *)

(** ** Runs, in general *)

(** What every invocation preserves, every run preserves. *)
Lemma invocations_invariant cfg (P : World -> Prop) :
  (forall rnd w, P w -> P (snd (simulate_error cfg rnd w))) ->
  forall rnds w, P w -> P (snd (invocations cfg rnds w)).
Proof.
  intros Hstep. induction rnds as [ | rnd rest IH ]; intros w Hw.
  - exact Hw.
  - cbn [invocations]. specialize (Hstep rnd w Hw).
    destruct (simulate_error cfg rnd w) as [c w1]. cbn [snd] in Hstep.
    specialize (IH w1 Hstep).
    destruct (invocations cfg rest w1) as [cs w2]. exact IH.
Qed.

Lemma invocations_request_count cfg rnds :
  forall w,
    request_count (snd (invocations cfg rnds w))
    = request_count w + len (fst (invocations cfg rnds w)).
Proof.
  unfold len. induction rnds as [ | rnd rest IH ]; intros w.
  - cbn. lia.
  - cbn [invocations].
    pose proof (simulate_error_request_count cfg rnd w) as Hrc.
    destruct (simulate_error cfg rnd w) as [c w1]. cbn [snd] in Hrc.
    specialize (IH w1).
    destruct (invocations cfg rest w1) as [cs w2]. cbn [fst snd List.length] in *. lia.
Qed.

Lemma invocations_length cfg rnds :
  forall w, List.length (fst (invocations cfg rnds w)) = List.length rnds.
Proof.
  induction rnds as [ | rnd rest IH ]; intros w.
  - reflexivity.
  - cbn [invocations].
    destruct (simulate_error cfg rnd w) as [c w1].
    specialize (IH w1).
    destruct (invocations cfg rest w1) as [cs w2]. cbn [fst List.length] in *. lia.
Qed.

(** ** Nothing is taken away *)

Lemma grows_refl w : grows w w.
Proof.
  unfold grows. split; [ lia | ].
  repeat split; exists []; rewrite app_nil_r; reflexivity.
Qed.

Lemma grows_trans w1 w2 w3 : grows w1 w2 -> grows w2 w3 -> grows w1 w3.
Proof.
  intros (Hc & (b & Hb) & (r & Hr) & (u & Hu)) (Hc' & (b' & Hb') & (r' & Hr') & (u' & Hu')).
  unfold grows. split; [ lia | ].
  repeat split.
  - exists (b ++ b')%list. rewrite Hb', Hb, app_assoc. reflexivity.
  - exists (r ++ r')%list. rewrite Hr', Hr, app_assoc. reflexivity.
  - exists (u ++ u')%list. rewrite Hu', Hu, app_assoc. reflexivity.
Qed.

Lemma simulate_error_grows cfg rnd w : grows w (snd (simulate_error cfg rnd w)).
Proof.
  unfold grows.
  destruct (crash_limit_reached cfg (request_count w + 1)) eqn:Hg.
  - rewrite simulate_error_crash by assumption.
    cbn [snd request_count memory_leak log_output drawn].
    split; [ lia | ]. repeat split.
    + exists []. rewrite app_nil_r. reflexivity.
    + eexists. reflexivity.
    + exists []. rewrite app_nil_r. reflexivity.
  - rewrite simulate_error_no_crash by assumption.
    cbn [snd request_count memory_leak log_output drawn].
    split; [ lia | ]. repeat split.
    + unfold leak_after. destruct (OOM_TRIGGER cfg).
      * eexists. reflexivity.
      * exists []. rewrite app_nil_r. reflexivity.
    + eexists. reflexivity.
    + eexists. reflexivity.
Qed.

Lemma logging_grows lvl msg w : grows w (snd (logging lvl msg w)).
Proof.
  unfold grows. cbn. split; [ lia | ]. repeat split.
  - exists []. rewrite app_nil_r. reflexivity.
  - eexists. reflexivity.
  - exists []. rewrite app_nil_r. reflexivity.
Qed.

Lemma index_world cfg rnd w : snd (index cfg rnd w) = snd (simulate_error cfg rnd w).
Proof.
  unfold index, bind.
  destruct (simulate_error cfg rnd w) as [[ [] | e ] w1]; reflexivity.
Qed.

Lemma background_tick_grows cfg rnd w : grows w (snd (background_tick cfg rnd w)).
Proof.
  pose proof (simulate_error_grows cfg rnd w) as Hstep.
  unfold background_tick, bind.
  destruct (simulate_error cfg rnd w) as [[ [] | e ] w1]; cbn [snd] in *.
  - eapply grows_trans; [ exact Hstep | ].
    apply (logging_grows INFO _ w1).
  - exact Hstep.
Qed.

Lemma background_logger_grows cfg rnds :
  forall w, grows w (snd (background_logger cfg rnds w)).
Proof.
  induction rnds as [ | rnd rest IH ]; intros w.
  - apply grows_refl.
  - cbn [background_logger]. unfold bind.
    pose proof (background_tick_grows cfg rnd w) as Htick.
    destruct (background_tick cfg rnd w) as [[ [] | e ] w1]; cbn [snd] in *.
    + eapply grows_trans; [ exact Htick | apply IH ].
    + exact Htick.
Qed.

(** X1.  No call of the program takes anything away: after an engine
    invocation, a [GET /], a turn or any number of turns of the background
    logger, or a run of invocations, the counter is at least what it was and
    the leak, the log and the draws made have only been added to at the
    end. *)
Theorem state_only_grows (cfg : Config) (rnd : Random) (rnds : list Random) (w : World) :
  grows w (snd (simulate_error cfg rnd w))
  /\ grows w (snd (index cfg rnd w))
  /\ grows w (snd (background_tick cfg rnd w))
  /\ grows w (snd (background_logger cfg rnds w))
  /\ grows w (snd (invocations cfg rnds w)).
Proof.
  split; [ apply simulate_error_grows | ].
  split; [ rewrite index_world; apply simulate_error_grows | ].
  split; [ apply background_tick_grows | ].
  split; [ apply background_logger_grows | ].
  revert w. induction rnds as [ | r rest IH ]; intros w.
  - apply grows_refl.
  - cbn [invocations].
    pose proof (simulate_error_grows cfg r w) as Hstep.
    destruct (simulate_error cfg r w) as [c w1]. cbn [snd] in Hstep.
    specialize (IH w1). destruct (invocations cfg rest w1) as [cs w2].
    cbn [snd] in *. eapply grows_trans; eassumption.
Qed.

(** X2.  After any run of invocations from the initial state, the counter
    equals the number of invocations made, those that raised [Exception] or
    [SystemExit] included (every element of [rnds] is one invocation made,
    at the crash limit and past it too), and that is the number
    [GET /metrics] and a healthy [GET /health] report. *)
Theorem reported_count_is_invocations_made (cfg : Config) (rnds : list Random) (now : string) :
  let cs := fst (invocations cfg rnds initial) in
  let w := snd (invocations cfg rnds initial) in
  request_count w = len cs
  /\ len cs = len rnds
  /\ fst (metrics cfg now w)
     = Return (jsonify [("requests_total", JInt (len cs));
                        ("error_type", JString (ERROR_TYPE cfg));
                        ("timestamp", JString now)])
  /\ ((ERROR_TYPE cfg =? "unhealthy")%string = false ->
      fst (health cfg w)
      = Return (jsonify [("status", JString "healthy"); ("requests", JInt (len cs))])).
Proof.
  intros cs w. subst cs w.
  pose proof (invocations_request_count cfg rnds initial) as Hrc.
  pose proof (invocations_length cfg rnds initial) as Hlen.
  cbn [initial request_count] in Hrc. rewrite Z.add_0_l in Hrc.
  split; [ exact Hrc | ].
  split; [ unfold len; lia | ].
  split.
  - unfold metrics, bind, get_request_count, ret. cbn [fst]. rewrite Hrc. reflexivity.
  - intros Htype. unfold health. rewrite Htype.
    unfold bind, get_request_count, ret. cbn [fst]. rewrite Hrc. reflexivity.
Qed.

(** ** The routes, in general *)

(** X3.  [GET /] fails exactly when the engine raises, with the engine's
    exception: [SystemExit(1)] at the crash limit, otherwise the chosen
    catalogue message when the engine panics; in every other case it answers
    200 and reports the counter as incremented by this very request.  Either
    way it leaves the world the engine left. *)
Theorem index_answers_unless_engine_raises (cfg : Config) (rnd : Random) (w : World) :
  fst (index cfg rnd w)
  = (if crash_limit_reached cfg (request_count w + 1) then Raise (SystemExit 1)
     else if panics cfg rnd then Raise (Exception (random_choice rnd ERROR_MESSAGES))
     else Return (mkResponse 200 (index_body cfg (request_count w + 1))))
  /\ snd (index cfg rnd w) = snd (simulate_error cfg rnd w).
Proof.
  split; [ | apply index_world ].
  unfold index, bind.
  destruct (crash_limit_reached cfg (request_count w + 1)) eqn:Hg.
  - rewrite simulate_error_crash by assumption. reflexivity.
  - rewrite simulate_error_no_crash by assumption.
    destruct (panics cfg rnd); reflexivity.
Qed.

(** X4.  [GET /health] always answers and changes nothing.  The status is
    500, with status "unhealthy", exactly when [ERROR_TYPE] is "unhealthy";
    otherwise it is 200 and the body carries the current counter, whatever
    the counter, the leak and the crash limit are. *)
Theorem health_fails_only_when_unhealthy (cfg : Config) (w : World) :
  exists resp,
    health cfg w = (Return resp, w)
    /\ (status resp = 500 <-> ERROR_TYPE cfg = "unhealthy")
    /\ (status resp = 200 <-> ERROR_TYPE cfg <> "unhealthy")
    /\ (ERROR_TYPE cfg = "unhealthy" ->
        body resp = [("status", JString "unhealthy"); ("error", JString "Service degraded")])
    /\ (ERROR_TYPE cfg <> "unhealthy" ->
        body resp = [("status", JString "healthy"); ("requests", JInt (request_count w))]).
Proof.
  unfold health.
  destruct (String.eqb_spec (ERROR_TYPE cfg) "unhealthy") as [Heq | Hne].
  - eexists. split; [ reflexivity | ]. cbn.
    repeat split; intros; try reflexivity; try assumption; try discriminate; contradiction.
  - eexists. split; [ reflexivity | ]. cbn.
    repeat split; intros; try reflexivity; try assumption; try discriminate; contradiction.
Qed.

(** X5.  [GET /ready] always answers and changes nothing.  The status is
    503, with [ready: false], exactly when [ERROR_TYPE] is "not-ready";
    otherwise it is 200 with [ready: true]. *)
Theorem ready_fails_only_when_not_ready (cfg : Config) (w : World) :
  exists resp,
    ready cfg w = (Return resp, w)
    /\ (status resp = 503 <-> ERROR_TYPE cfg = "not-ready")
    /\ (status resp = 200 <-> ERROR_TYPE cfg <> "not-ready")
    /\ (ERROR_TYPE cfg = "not-ready" ->
        body resp = [("ready", JBool false); ("reason", JString "Dependencies unavailable")])
    /\ (ERROR_TYPE cfg <> "not-ready" -> body resp = [("ready", JBool true)]).
Proof.
  unfold ready.
  destruct (String.eqb_spec (ERROR_TYPE cfg) "not-ready") as [Heq | Hne].
  - eexists. split; [ reflexivity | ]. cbn.
    repeat split; intros; try reflexivity; try assumption; try discriminate; contradiction.
  - eexists. split; [ reflexivity | ]. cbn.
    repeat split; intros; try reflexivity; try assumption; try discriminate; contradiction.
Qed.

(** ** One tag, one failure mode *)

Lemma has_fixed_line_spec cfg :
  has_fixed_line cfg = true
  <-> ERROR_TYPE cfg = "import-error" \/ ERROR_TYPE cfg = "db-error"
      \/ ERROR_TYPE cfg = "api-error" \/ ERROR_TYPE cfg = "disk-full".
Proof.
  unfold has_fixed_line. cbn [existsb].
  rewrite !orb_true_iff, !String.eqb_eq. intuition discriminate.
Qed.

Lemma fixed_tag_excludes cfg other :
  has_fixed_line cfg = true ->
  other <> "import-error" -> other <> "db-error" ->
  other <> "api-error" -> other <> "disk-full" ->
  (ERROR_TYPE cfg =? other)%string = false.
Proof.
  intros Hfix H1 H2 H3 H4. apply String.eqb_neq. intros Heq.
  apply has_fixed_line_spec in Hfix. rewrite Heq in Hfix.
  destruct Hfix as [H | [H | [H | H]]]; contradiction.
Qed.

Lemma fixed_records_count cfg :
  count_level ERROR (fixed_records cfg) = if has_fixed_line cfg then 1%nat else 0%nat.
Proof.
  unfold fixed_records, has_fixed_line. cbn [existsb].
  repeat match goal with
         | |- context [String.eqb (ERROR_TYPE cfg) ?s] =>
             destruct (String.eqb (ERROR_TYPE cfg) s)
         end; reflexivity.
Qed.

Lemma panics_excludes_fixed_line cfg rnd :
  panics cfg rnd = true -> has_fixed_line cfg = false.
Proof.
  unfold panics. intros Hp. apply andb_true_iff in Hp. destruct Hp as [_ Hp].
  apply String.eqb_eq in Hp. unfold has_fixed_line. rewrite Hp. reflexivity.
Qed.

Lemma count_fixed_app (a b : list LogRecord) :
  count_fixed (a ++ b) = (count_fixed a + count_fixed b)%nat.
Proof. unfold count_fixed. rewrite filter_app, length_app. reflexivity. Qed.

Lemma leak_records_not_fixed cfg leak : count_fixed (leak_records cfg leak) = 0%nat.
Proof.
  unfold leak_records.
  destruct (OOM_TRIGGER cfg); [ | reflexivity ].
  destruct (_ =? 0); reflexivity.
Qed.

Lemma probabilistic_records_not_fixed cfg rnd n :
  count_fixed (probabilistic_records cfg rnd n) = 0%nat.
Proof.
  unfold probabilistic_records, count_fixed.
  destruct (draw_succeeds cfg rnd); [ | reflexivity ].
  cbn [filter]. unfold is_fixed, probabilistic_record.
  cbn [message levelname has_level Level_eqb andb].
  rewrite prefix_append. reflexivity.
Qed.

Lemma fixed_records_are_fixed cfg :
  count_fixed (fixed_records cfg) = if has_fixed_line cfg then 1%nat else 0%nat.
Proof.
  unfold fixed_records, has_fixed_line. cbn [existsb].
  repeat match goal with
         | |- context [String.eqb (ERROR_TYPE cfg) ?s] =>
             destruct (String.eqb (ERROR_TYPE cfg) s)
         end; reflexivity.
Qed.

(** The number of records of lines 65-72 one invocation adds. *)
Lemma simulate_error_fixed cfg rnd w :
  count_fixed (log_output (snd (simulate_error cfg rnd w)))
  = (count_fixed (log_output w)
     + if crash_limit_reached cfg (request_count w + 1) then 0
       else if has_fixed_line cfg then 1 else 0)%nat.
Proof.
  destruct (crash_limit_reached cfg (request_count w + 1)) eqn:Hg.
  - rewrite simulate_error_crash by assumption. cbn [snd log_output].
    rewrite count_fixed_app. reflexivity.
  - rewrite simulate_error_no_crash by assumption. cbn [snd log_output].
    rewrite !count_fixed_app, leak_records_not_fixed, probabilistic_records_not_fixed.
    destruct (panics cfg rnd) eqn:Hp.
    + rewrite (panics_excludes_fixed_line cfg rnd Hp). reflexivity.
    + rewrite fixed_records_are_fixed. lia.
Qed.

Lemma simulate_error_no_exception cfg rnd w :
  panics cfg rnd = false ->
  forall msg, fst (simulate_error cfg rnd w) <> Raise (Exception msg).
Proof.
  intros Hp msg Hraise.
  apply simulate_error_raises_exception in Hraise.
  destruct Hraise as (_ & Hp' & _). congruence.
Qed.

(** X6.  [ERROR_TYPE] holds one tag, so the failure modes exclude one
    another.  If [GET /health] answers 500 then [GET /ready] answers 200,
    and conversely a 503 from [GET /ready] comes with a 200 from
    [GET /health]; in both configurations no engine invocation ever raises
    [Exception] or logs a fixed error line.  With one of the four fixed
    tags both checks pass, no invocation raises [Exception], and every
    invocation that gets past the crash check logs exactly one fixed line.
    With the tag "panic" both checks pass, no invocation logs a fixed line,
    and every invocation that gets past the crash check with a draw below
    [ERROR_RATE] raises [Exception]. *)
Theorem failure_modes_exclude_one_another (cfg : Config) (w : World) :
  let health_status := option_map status
                         (match fst (health cfg w) with Return r => Some r | Raise _ => None end) in
  let ready_status := option_map status
                        (match fst (ready cfg w) with Return r => Some r | Raise _ => None end) in
  let never_raises_exception :=
    forall rnd w1 msg, fst (simulate_error cfg rnd w1) <> Raise (Exception msg) in
  let logs_no_fixed_line :=
    forall rnd w1,
      count_fixed (log_output (snd (simulate_error cfg rnd w1))) = count_fixed (log_output w1) in
  (health_status = Some 500 ->
     ready_status = Some 200 /\ never_raises_exception /\ logs_no_fixed_line)
  /\ (ready_status = Some 503 ->
      health_status = Some 200 /\ never_raises_exception /\ logs_no_fixed_line)
  /\ (ERROR_TYPE cfg = "import-error" \/ ERROR_TYPE cfg = "db-error"
      \/ ERROR_TYPE cfg = "api-error" \/ ERROR_TYPE cfg = "disk-full" ->
      health_status = Some 200 /\ ready_status = Some 200 /\ never_raises_exception
      /\ forall rnd w1,
           crash_limit_reached cfg (request_count w1 + 1) = false ->
           count_fixed (log_output (snd (simulate_error cfg rnd w1)))
           = (count_fixed (log_output w1) + 1)%nat)
  /\ (ERROR_TYPE cfg = "panic" ->
      health_status = Some 200 /\ ready_status = Some 200 /\ logs_no_fixed_line
      /\ forall rnd w1,
           crash_limit_reached cfg (request_count w1 + 1) = false ->
           SFltb (next_random rnd) (ERROR_RATE cfg) = true ->
           fst (simulate_error cfg rnd w1)
           = Raise (Exception (random_choice rnd ERROR_MESSAGES))).
Proof.
  intros health_status ready_status never_raises_exception logs_no_fixed_line.
  subst health_status ready_status never_raises_exception logs_no_fixed_line.
  assert (Hquiet : forall tag,
             ERROR_TYPE cfg = tag ->
             (tag =? "panic")%string = false ->
             existsb (String.eqb tag)
               ["import-error"; "db-error"; "api-error"; "disk-full"] = false ->
             (forall rnd w1 msg, fst (simulate_error cfg rnd w1) <> Raise (Exception msg))
             /\ (forall rnd w1,
                    count_fixed (log_output (snd (simulate_error cfg rnd w1)))
                    = count_fixed (log_output w1))).
  { intros tag Htag Hnp Hnf. split.
    - intros rnd w1. apply simulate_error_no_exception.
      unfold panics. rewrite Htag, Hnp. apply andb_false_r.
    - intros rnd w1. rewrite simulate_error_fixed.
      unfold has_fixed_line. rewrite Htag, Hnf.
      destruct (crash_limit_reached _ _); lia. }
  unfold health, ready.
  split; [ | split; [ | split ] ].
  - destruct (String.eqb_spec (ERROR_TYPE cfg) "unhealthy") as [Heq | Hne];
      [ | cbn; discriminate ].
    intros _. destruct (Hquiet "unhealthy" Heq eq_refl eq_refl) as [Hne Hnf].
    rewrite Heq. split; [ reflexivity | ]. split; assumption.
  - destruct (String.eqb_spec (ERROR_TYPE cfg) "not-ready") as [Heq | Hne];
      [ | cbn; discriminate ].
    intros _. destruct (Hquiet "not-ready" Heq eq_refl eq_refl) as [Hne Hnf].
    rewrite Heq. split; [ reflexivity | ]. split; assumption.
  - intros Htag. apply has_fixed_line_spec in Htag.
    rewrite (fixed_tag_excludes cfg "unhealthy" Htag) by discriminate.
    rewrite (fixed_tag_excludes cfg "not-ready" Htag) by discriminate.
    split; [ reflexivity | ]. split; [ reflexivity | ]. split.
    + intros rnd w1. apply simulate_error_no_exception.
      unfold panics. rewrite (fixed_tag_excludes cfg "panic" Htag) by discriminate.
      apply andb_false_r.
    + intros rnd w1 Hg. rewrite simulate_error_fixed, Hg, Htag. reflexivity.
  - intros Heq. rewrite Heq. split; [ reflexivity | ]. split; [ reflexivity | ]. split.
    + intros rnd w1. rewrite simulate_error_fixed.
      unfold has_fixed_line. rewrite Heq. cbn [existsb String.eqb Ascii.eqb Bool.eqb orb].
      destruct (crash_limit_reached _ _); lia.
    + intros rnd w1 Hg Hdraw.
      rewrite simulate_error_panics; [ reflexivity | exact Hg | ].
      unfold panics, draw_succeeds. rewrite Hdraw, Heq. reflexivity.
Qed.

Lemma failure_modes_exclude_one_another_witness :
  fst (health cfg_unhealthy initial)
  = Return (mkResponse 500
              [("status", JString "unhealthy"); ("error", JString "Service degraded")])
  /\ fst (ready cfg_unhealthy initial) = Return (mkResponse 200 [("ready", JBool true)])
  /\ (forall msg, fst (simulate_error cfg_unhealthy half initial) <> Raise (Exception msg))
  /\ count_fixed (log_output (snd (simulate_error cfg_unhealthy half initial))) = 0%nat
  /\ count_fixed (log_output (snd (simulate_error cfg_db_error half initial))) = 1%nat
  /\ (forall msg, fst (simulate_error cfg_db_error half initial) <> Raise (Exception msg)).
Proof.
  destruct (failure_modes_exclude_one_another cfg_unhealthy initial) as (Hh & _).
  destruct (failure_modes_exclude_one_another cfg_db_error initial) as (_ & _ & Hf & _).
  destruct (Hh eq_refl) as (_ & Hne & Hnf).
  destruct Hf as (_ & _ & Hne' & Hone); [ right; left; reflexivity | ].
  split; [ reflexivity | ]. split; [ reflexivity | ].
  split; [ apply Hne | ]. split; [ apply (Hnf half initial) | ].
  split; [ apply (Hone half initial eq_refl) | apply Hne' ].
Defined.

(** ** ERROR records per invocation *)

Lemma count_level_probabilistic_records cfg rnd n :
  count_level ERROR (probabilistic_records cfg rnd n)
  = if draw_succeeds cfg rnd then 1%nat else 0%nat.
Proof. unfold probabilistic_records. destruct (draw_succeeds cfg rnd); reflexivity. Qed.

(** X7.  An invocation that gets past the crash check logs one ERROR
    record if its draw is below [ERROR_RATE], and one more, independently of
    the draw, if [ERROR_TYPE] is one of "import-error", "db-error",
    "api-error" and "disk-full"; it logs no other ERROR record.  Any other
    tag, "panic" and unknown tags included, adds none. *)
Theorem error_records_per_invocation (cfg : Config) (rnd : Random) (w : World) :
  crash_limit_reached cfg (request_count w + 1) = false ->
  count_level ERROR (log_output (snd (simulate_error cfg rnd w)))
  = (count_level ERROR (log_output w)
     + (if draw_succeeds cfg rnd then 1 else 0)
     + (if has_fixed_line cfg then 1 else 0))%nat
  /\ (has_fixed_line cfg = true
      <-> ERROR_TYPE cfg = "import-error" \/ ERROR_TYPE cfg = "db-error"
          \/ ERROR_TYPE cfg = "api-error" \/ ERROR_TYPE cfg = "disk-full").
Proof.
  intros Hg. split; [ | apply has_fixed_line_spec ].
  rewrite simulate_error_no_crash by assumption. cbn [snd log_output].
  rewrite !count_level_app, count_level_probabilistic_records.
  rewrite leak_records_level by discriminate.
  destruct (panics cfg rnd) eqn:Hp.
  - rewrite (panics_excludes_fixed_line cfg rnd Hp). cbn. lia.
  - rewrite fixed_records_count. lia.
Qed.

Lemma error_records_per_invocation_witness :
  count_level ERROR (log_output (snd (simulate_error cfg_always half initial))) = 2%nat
  /\ count_level ERROR (log_output (snd (simulate_error cfg_db_error half initial))) = 1%nat
  /\ count_level ERROR (log_output (snd (simulate_error cfg_panic_leak half initial))) = 1%nat.
Proof.
  destruct (error_records_per_invocation cfg_always half initial eq_refl) as (H1 & _).
  destruct (error_records_per_invocation cfg_db_error half initial eq_refl) as (H2 & _).
  destruct (error_records_per_invocation cfg_panic_leak half initial eq_refl) as (H3 & _).
  repeat split; assumption.
Defined.

(** ** ERROR_RATE outside [0.0, 1.0] and the draw *)

Lemma not_below_nan (u : float) : SFltb u S754_nan = false.
Proof. destruct u as [ s | s | | s m e ]; reflexivity. Qed.

Lemma not_below_nonpositive (u r : float) :
  SFleb float_zero u = true -> SFleb r float_zero = true -> SFltb u r = false.
Proof.
  intros Hu Hr.
  destruct u as [ su | su | | su mu eu ]; try destruct su; try discriminate Hu;
    destruct r as [ sr | sr | | sr mr er ]; try destruct sr; try discriminate Hr;
    reflexivity.
Qed.

Lemma below_one_or_more (u r : float) :
  SFltb u float_one = true -> SFleb float_one r = true -> SFltb u r = true.
Proof.
  intros Hu Hr.
  destruct r as [ sr | sr | | sr mr er ]; try destruct sr; try discriminate Hr.
  - (* r = +inf *)
    destruct u as [ su | su | | su mu eu ]; try destruct su; try discriminate Hu;
      reflexivity.
  - (* r finite and positive *)
    destruct u as [ su | su | | su mu eu ]; try destruct su; try discriminate Hu;
      try reflexivity.
    unfold SFltb, SFleb, SFcompare, float_one in *.
    change (Pos.compare_cont Eq) with Pos.compare in *.
    destruct (Z.compare_spec eu (-52)) as [ He1 | He1 | He1 ]; try discriminate Hu;
      destruct (Z.compare_spec (-52) er) as [ He2 | He2 | He2 ]; try discriminate Hr;
      destruct (Z.compare_spec eu er) as [ He3 | He3 | He3 ]; try lia; try reflexivity.
    assert (Hm1 : (mu < 4503599627370496)%positive).
    { destruct (Pos.compare_spec mu 4503599627370496) as [ E | E | E ];
        [ discriminate Hu | exact E | discriminate Hu ]. }
    assert (Hm2 : (4503599627370496 <= mr)%positive).
    { destruct (Pos.compare_spec 4503599627370496 mr) as [ E | E | E ];
        [ rewrite <- E; apply Pos.le_refl | apply Pos.lt_le_incl, E | discriminate Hr ]. }
    pose proof (Pos.lt_le_trans _ _ _ Hm1 Hm2) as Hm3.
    apply Pos.compare_lt_iff in Hm3. rewrite Hm3. reflexivity.
Qed.

(** X8.  How [ERROR_RATE] values outside the unit interval behave, for
    every draw in [0.0, 1.0): with a rate that is NaN, zero of either sign,
    negative or minus infinity the test of line 57 fails, the invocation
    logs no probabilistic line and does not raise [Exception], whatever
    [ERROR_TYPE] is; with a rate of 1.0 or more, plus infinity included, the
    test succeeds, so an invocation that gets past the crash check logs
    exactly one probabilistic line, and raises [Exception] if [ERROR_TYPE]
    is "panic". *)
Theorem error_rate_outside_unit_interval (cfg : Config) (rnd : Random) (w : World) :
  in_unit_interval (next_random rnd) = true ->
  (ERROR_RATE cfg = S754_nan \/ SFleb (ERROR_RATE cfg) float_zero = true ->
     draw_succeeds cfg rnd = false
     /\ (forall msg, fst (simulate_error cfg rnd w) <> Raise (Exception msg))
     /\ count_probabilistic (log_output (snd (simulate_error cfg rnd w)))
        = count_probabilistic (log_output w))
  /\ (SFleb float_one (ERROR_RATE cfg) = true ->
      draw_succeeds cfg rnd = true
      /\ (crash_limit_reached cfg (request_count w + 1) = false ->
          count_probabilistic (log_output (snd (simulate_error cfg rnd w)))
          = (count_probabilistic (log_output w) + 1)%nat)
      /\ (crash_limit_reached cfg (request_count w + 1) = false ->
          ERROR_TYPE cfg = "panic" ->
          fst (simulate_error cfg rnd w)
          = Raise (Exception (random_choice rnd ERROR_MESSAGES)))).
Proof.
  intros Hdraw.
  unfold in_unit_interval in Hdraw.
  apply andb_true_iff in Hdraw. destruct Hdraw as [Hdraw Hlt].
  apply andb_true_iff in Hdraw. destruct Hdraw as [_ Hge].
  pose proof (simulate_error_probabilistic cfg rnd w) as Hcount.
  split.
  - intros Hrate.
    assert (Hd : draw_succeeds cfg rnd = false).
    { unfold draw_succeeds. destruct Hrate as [Hnan | Hle].
      - rewrite Hnan. apply not_below_nan.
      - apply not_below_nonpositive; assumption. }
    split; [ exact Hd | ]. split.
    + apply simulate_error_no_exception. unfold panics. rewrite Hd. reflexivity.
    + rewrite Hcount, Hd. destruct (crash_limit_reached _ _); lia.
  - intros Hrate.
    assert (Hd : draw_succeeds cfg rnd = true)
      by (unfold draw_succeeds; apply below_one_or_more; assumption).
    split; [ exact Hd | ]. split.
    + intros Hg. rewrite Hcount, Hg, Hd. reflexivity.
    + intros Hg Htype. rewrite simulate_error_panics; [ reflexivity | exact Hg | ].
      unfold panics. rewrite Hd, Htype. reflexivity.
Qed.

Lemma error_rate_outside_unit_interval_witness :
  draw_succeeds cfg_nan half = false
  /\ draw_succeeds cfg_negative_rate half = false
  /\ draw_succeeds cfg_rate_five half = true
  /\ count_probabilistic (log_output (snd (simulate_error cfg_rate_five half initial))) = 1%nat
  /\ count_probabilistic (log_output (snd (simulate_error cfg_nan half initial))) = 0%nat.
Proof.
  destruct (error_rate_outside_unit_interval cfg_nan half initial eq_refl) as (Hnan & _).
  destruct (error_rate_outside_unit_interval cfg_negative_rate half initial eq_refl)
    as (Hneg & _).
  destruct (error_rate_outside_unit_interval cfg_rate_five half initial eq_refl)
    as (_ & Hfive).
  split; [ apply Hnan; left; reflexivity | ].
  split; [ apply Hneg; right; reflexivity | ].
  split; [ apply Hfive; reflexivity | ].
  split.
  - destruct (Hfive eq_refl) as (_ & Hone & _). apply (Hone eq_refl).
  - destruct Hnan as (_ & _ & Hzero); [ left; reflexivity | exact Hzero ].
Defined.

(** ** The settings that keep the service quiet *)

(** X9.  With the crash limit off, [OOM_TRIGGER] off, [ERROR_RATE] 0.0 and
    a tag that is none of the four fixed ones (the default "none", but also
    "panic", "unhealthy", "not-ready" or an unknown tag), every [GET /]
    answers 200 with the incremented counter and the engine does nothing but
    count: no record is logged, nothing is leaked, and only the draw is
    consumed. *)
Theorem quiet_settings_only_count (cfg : Config) (rnd : Random) (w : World) :
  CRASH_AFTER cfg <= 0 ->
  OOM_TRIGGER cfg = false ->
  ERROR_RATE cfg = float_zero ->
  has_fixed_line cfg = false ->
  in_unit_interval (next_random rnd) = true ->
  index cfg rnd w =
    (Return (mkResponse 200 (index_body cfg (request_count w + 1))),
     mkWorld (request_count w + 1) (memory_leak w) (log_output w)
             (drawn w ++ [next_random rnd])).
Proof.
  intros Hcrash Hoom Hrate Hfix Hdraw.
  assert (Hg : crash_limit_reached cfg (request_count w + 1) = false)
    by (apply crash_limit_not_reached_spec; lia).
  assert (Hd : draw_succeeds cfg rnd = false)
    by (unfold draw_succeeds; rewrite Hrate; apply draw_not_below_zero, Hdraw).
  assert (Hnone : fixed_records cfg = []).
  { pose proof (fixed_records_count cfg) as Hc. rewrite Hfix in Hc.
    unfold fixed_records in *.
    repeat match goal with
           | |- context [String.eqb (ERROR_TYPE cfg) ?s] =>
               destruct (String.eqb (ERROR_TYPE cfg) s)
           end; try reflexivity; discriminate Hc. }
  unfold index, bind. rewrite simulate_error_no_crash by assumption.
  unfold panics, probabilistic_records, leak_records, leak_after.
  rewrite Hd, Hoom, Hnone. cbn [andb app]. rewrite app_nil_r. reflexivity.
Qed.

Lemma quiet_settings_only_count_witness :
  index cfg_quiet half initial =
    (Return (mkResponse 200 (index_body cfg_quiet 1)),
     mkWorld 1 [] [] [next_random half]).
Proof.
  apply (quiet_settings_only_count cfg_quiet half initial);
    [ cbn; lia | reflexivity | reflexivity | reflexivity | reflexivity ].
Defined.

(** ** What the leak holds and what the warnings say *)

Lemma leaked_units_uniform leak :
  uniform_blocks leak -> leaked_units leak = 10000 * len leak.
Proof.
  unfold uniform_blocks, leaked_units, len.
  induction 1 as [ | blk rest Hblk _ IH ].
  - reflexivity.
  - cbn [List.concat List.length]. rewrite length_app, Nat2Z.inj_add, IH. subst blk.
    pose proof (len_list_times 0 10000 ltac:(lia)) as Hlen. unfold len in Hlen.
    rewrite Hlen. lia.
Qed.

Lemma simulate_error_leak_invariant cfg rnd w :
  uniform_blocks (memory_leak w) /\ warnings_tell_blocks w ->
  uniform_blocks (memory_leak (snd (simulate_error cfg rnd w)))
  /\ warnings_tell_blocks (snd (simulate_error cfg rnd w)).
Proof.
  intros [Huni Hwarn]. unfold warnings_tell_blocks in *.
  destruct (crash_limit_reached cfg (request_count w + 1)) eqn:Hg.
  - rewrite simulate_error_crash by assumption. cbn [snd memory_leak log_output].
    rewrite warnings_app. cbn [warnings filter has_level Level_eqb crash_record levelname].
    rewrite app_nil_r. split; assumption.
  - rewrite simulate_error_warnings, simulate_error_leak by assumption.
    unfold leak_after, leak_records.
    destruct (OOM_TRIGGER cfg).
    + split.
      * apply Forall_app. split; [ exact Huni | ]. constructor; [ reflexivity | constructor ].
      * apply Forall_app. split.
        -- eapply Forall_impl; [ | exact Hwarn ].
           intros r (l & Hr & Hmod & Hl). exists l. rewrite len_app_one.
           repeat split; try assumption; lia.
        -- destruct (_ =? 0) eqn:Hmod; [ | constructor ].
           apply Z.eqb_eq in Hmod.
           constructor; [ | constructor ].
           eexists. split; [ reflexivity | ]. split; [ exact Hmod | ].
           rewrite len_app_one. unfold len. lia.
    + rewrite app_nil_r. split; assumption.
Qed.

(** X10.  In every state reached from the initial one by engine
    invocations, each block of the leak is a list of 10000 zeros, so the
    leak holds 10000 units per block; and every WARNING in the log is the
    leak warning for a multiple of 10 blocks that the leak has reached,
    naming 10000 units per block. *)
Theorem leak_is_made_of_full_blocks (cfg : Config) (rnds : list Random) :
  let w := snd (invocations cfg rnds initial) in
  uniform_blocks (memory_leak w)
  /\ leaked_units (memory_leak w) = 10000 * len (memory_leak w)
  /\ Forall (fun r => exists l,
                 r = mkLog WARNING ("⚠️  Memory leak: " ++ str (l * 10000) ++ " items allocated")
                 /\ l mod 10 = 0 /\ 0 < l <= len (memory_leak w))
            (warnings (log_output w)).
Proof.
  intros w. subst w.
  assert (Hinv : uniform_blocks (memory_leak (snd (invocations cfg rnds initial)))
                 /\ warnings_tell_blocks (snd (invocations cfg rnds initial))).
  { apply (invocations_invariant cfg
             (fun w => uniform_blocks (memory_leak w) /\ warnings_tell_blocks w)).
    - intros rnd w. apply simulate_error_leak_invariant.
    - split; constructor. }
  destruct Hinv as [Huni Hwarn].
  split; [ exact Huni | ]. split; [ apply leaked_units_uniform, Huni | exact Hwarn ].
Qed.

(** ** Past the crash limit *)

(** X11.  The crash limit, once reached, stays reached: the invocation
    that raises [SystemExit] leaves a counter for which the guard of line 46
    holds again.  Were the process still to serve requests after it (the
    exception having ended only the calling thread), every further
    [GET /] and every further turn of the background logger would raise
    [SystemExit(1)] and log one more CRITICAL record, and [GET /health]
    would keep reporting the growing counter. *)
Theorem crash_limit_stays_reached (cfg : Config) (rnd : Random) (w : World) :
  crash_limit_reached cfg (request_count w + 1) = true ->
  let w1 := snd (simulate_error cfg rnd w) in
  crash_limit_reached cfg (request_count w1 + 1) = true
  /\ (forall rnd',
         fst (simulate_error cfg rnd' w1) = Raise (SystemExit 1)
         /\ fst (index cfg rnd' w1) = Raise (SystemExit 1)
         /\ fst (background_tick cfg rnd' w1) = Raise (SystemExit 1)
         /\ count_level CRITICAL (log_output (snd (simulate_error cfg rnd' w1)))
            = (count_level CRITICAL (log_output w) + 2)%nat)
  /\ ((ERROR_TYPE cfg =? "unhealthy")%string = false ->
      fst (health cfg w1)
      = Return (jsonify [("status", JString "healthy");
                         ("requests", JInt (request_count w + 1))])).
Proof.
  intros Hg w1. subst w1.
  assert (Hg1 : crash_limit_reached cfg
                  (request_count (snd (simulate_error cfg rnd w)) + 1) = true).
  { rewrite simulate_error_request_count.
    apply crash_limit_reached_spec. apply crash_limit_reached_spec in Hg. lia. }
  split; [ exact Hg1 | ]. split.
  - intros rnd'. unfold index, background_tick, bind.
    rewrite (simulate_error_crash cfg rnd' _ Hg1). cbn [fst snd log_output].
    rewrite (simulate_error_crash cfg rnd w Hg). cbn [snd log_output].
    repeat split. rewrite !count_level_app. cbn. lia.
  - intros Htype. unfold health. rewrite Htype.
    rewrite (simulate_error_crash cfg rnd w Hg). reflexivity.
Qed.

Lemma crash_limit_stays_reached_witness :
  fst (simulate_error cfg_always_crash_first half
         (snd (simulate_error cfg_always_crash_first half initial)))
  = Raise (SystemExit 1).
Proof.
  destruct (crash_limit_stays_reached cfg_always_crash_first half initial eq_refl)
    as (_ & Hagain & _).
  apply (Hagain half).
Defined.

(** ** How much one invocation logs *)

(** X12.  One engine invocation appends at most three log records: at the
    crash limit exactly one, the CRITICAL one; otherwise at most one WARNING
    and at most two ERROR records and no CRITICAL one.  It never logs at
    level INFO. *)
Theorem records_per_invocation (cfg : Config) (rnd : Random) (w : World) :
  exists recs,
    emitted w (snd (simulate_error cfg rnd w)) recs
    /\ (List.length recs <= 3)%nat
    /\ infos recs = []
    /\ (crash_limit_reached cfg (request_count w + 1) = true ->
        recs = [crash_record (request_count w + 1)])
    /\ (crash_limit_reached cfg (request_count w + 1) = false ->
        count_level CRITICAL recs = 0%nat
        /\ (count_level WARNING recs <= 1)%nat
        /\ (count_level ERROR recs <= 2)%nat).
Proof.
  unfold emitted.
  destruct (crash_limit_reached cfg (request_count w + 1)) eqn:Hg.
  - rewrite simulate_error_crash by assumption.
    eexists. split; [ reflexivity | ]. cbn.
    repeat split; try lia; try reflexivity; discriminate.
  - rewrite simulate_error_no_crash by assumption.
    eexists. split; [ reflexivity | ].
    unfold leak_records, probabilistic_records, fixed_records.
    destruct (OOM_TRIGGER cfg); [ destruct (_ =? 0) | ];
      destruct (draw_succeeds cfg rnd); destruct (panics cfg rnd);
      repeat match goal with
             | |- context [String.eqb (ERROR_TYPE cfg) ?s] =>
                 destruct (String.eqb (ERROR_TYPE cfg) s)
             end;
      cbn; repeat split; try lia; try reflexivity; discriminate.
Qed.

(** ** The background logger *)

Lemma infos_app (a b : list LogRecord) : infos (a ++ b) = (infos a ++ infos b)%list.
Proof. apply filter_app. Qed.

Lemma simulate_error_infos cfg rnd w :
  infos (log_output (snd (simulate_error cfg rnd w))) = infos (log_output w).
Proof.
  destruct (crash_limit_reached cfg (request_count w + 1)) eqn:Hg.
  - rewrite simulate_error_crash by assumption. cbn [snd log_output].
    rewrite infos_app. cbn. apply app_nil_r.
  - rewrite simulate_error_no_crash by assumption. cbn [snd log_output].
    rewrite !infos_app.
    unfold leak_records, probabilistic_records, fixed_records.
    destruct (OOM_TRIGGER cfg); [ destruct (_ =? 0) | ];
      destruct (draw_succeeds cfg rnd); destruct (panics cfg rnd);
      repeat match goal with
             | |- context [String.eqb (ERROR_TYPE cfg) ?s] =>
                 destruct (String.eqb (ERROR_TYPE cfg) s)
             end;
      cbn; rewrite ?app_nil_r; reflexivity.
Qed.

(** A turn whose engine call returns logs the status line for the new
    counter. *)
Lemma background_tick_returns cfg rnd w :
  crash_limit_reached cfg (request_count w + 1) = false ->
  panics cfg rnd = false ->
  let w1 := snd (simulate_error cfg rnd w) in
  background_tick cfg rnd w =
    (Return tt,
     mkWorld (request_count w + 1) (memory_leak w1)
             (log_output w1 ++ [status_record (request_count w + 1)]) (drawn w1)).
Proof.
  intros Hg Hp w1. subst w1. unfold background_tick, bind.
  rewrite simulate_error_no_crash by assumption. rewrite Hp. reflexivity.
Qed.

(** A turn whose engine call raises ends there, with no status line. *)
Lemma background_tick_raises cfg rnd w e :
  fst (simulate_error cfg rnd w) = Raise e ->
  background_tick cfg rnd w = (Raise e, snd (simulate_error cfg rnd w)).
Proof.
  intros Hraise. unfold background_tick, bind.
  destruct (simulate_error cfg rnd w) as [c w1]. cbn [fst snd] in *.
  rewrite Hraise. reflexivity.
Qed.

Lemma status_records_succ n k :
  status_records n (S k) = status_record (n + 1) :: status_records (n + 1) k.
Proof.
  unfold status_records. cbn [seq map]. f_equal.
  rewrite <- seq_shift, map_map. apply map_ext.
  intros i. f_equal. lia.
Qed.

Lemma background_logger_runs cfg rnds :
  forall w,
    (CRASH_AFTER cfg <= 0 \/ request_count w + len rnds < CRASH_AFTER cfg) ->
    Forall (fun rnd => panics cfg rnd = false) rnds ->
    fst (background_logger cfg rnds w) = Return tt
    /\ request_count (snd (background_logger cfg rnds w)) = request_count w + len rnds
    /\ infos (log_output (snd (background_logger cfg rnds w)))
       = (infos (log_output w) ++ status_records (request_count w) (List.length rnds))%list.
Proof.
  unfold len. induction rnds as [ | rnd rest IH ]; intros w Hlim Hcalm.
  - cbn. rewrite app_nil_r. repeat split. lia.
  - inversion Hcalm as [ | ? ? Hp Hrest ]; subst.
    assert (Hg : crash_limit_reached cfg (request_count w + 1) = false).
    { apply crash_limit_not_reached_spec. cbn [List.length] in Hlim. lia. }
    cbn [background_logger]. unfold bind.
    rewrite (background_tick_returns cfg rnd w Hg Hp).
    match goal with
    | |- context [background_logger cfg rest ?w1] =>
        destruct (IH w1) as (Hret & Hrc & Hinfos)
    end.
    { cbn [request_count List.length] in *. lia. }
    { exact Hrest. }
    rewrite Hret, Hrc, Hinfos. cbn [request_count log_output List.length].
    split; [ reflexivity | ]. split; [ lia | ].
    rewrite infos_app, simulate_error_infos, status_records_succ, <- app_assoc.
    reflexivity.
Qed.

Lemma background_logger_app cfg good rest :
  forall w,
    background_logger cfg (good ++ rest) w
    = bind (background_logger cfg good) (fun _ => background_logger cfg rest) w.
Proof.
  induction good as [ | rnd good IH ]; intros w.
  - reflexivity.
  - cbn [app background_logger]. unfold bind at 1 2 3.
    destruct (background_tick cfg rnd w) as [[ [] | e ] w1].
    + rewrite IH. reflexivity.
    + reflexivity.
Qed.

(** X13.  As long as no turn panics and the crash limit is not reached,
    the background logger keeps going: after any number of turns it is still
    in its loop, it has raised the counter by one per turn, and it has
    logged, at level INFO, exactly one status line per turn, carrying the
    successive counter values. *)
Theorem background_logger_keeps_going (cfg : Config) (rnds : list Random) (w : World) :
  CRASH_AFTER cfg <= 0 \/ request_count w + len rnds < CRASH_AFTER cfg ->
  Forall (fun rnd => panics cfg rnd = false) rnds ->
  fst (background_logger cfg rnds w) = Return tt
  /\ request_count (snd (background_logger cfg rnds w)) = request_count w + len rnds
  /\ infos (log_output (snd (background_logger cfg rnds w)))
     = (infos (log_output w)
          ++ map (fun i => mkLog INFO ("📈 Status: " ++ str (request_count w + Z.of_nat i)
                                        ++ " requests processed"))
                 (seq 1 (List.length rnds)))%list.
Proof. apply background_logger_runs. Qed.

Lemma background_logger_keeps_going_witness :
  fst (background_logger cfg_db_error [half; half; half] initial) = Return tt
  /\ request_count (snd (background_logger cfg_db_error [half; half; half] initial)) = 3.
Proof.
  destruct (background_logger_keeps_going cfg_db_error [half; half; half] initial)
    as (Hret & Hrc & _).
  - left. cbn. lia.
  - repeat constructor.
  - split; [ exact Hret | exact Hrc ].
Defined.

(** X14.  A turn that panics ends the background logger for good: after
    any number of quiet turns, the first turn whose engine call raises
    [Exception] leaves the loop with that exception, without its status
    line, and no later turn takes place, whatever would have been drawn for
    it.  The counter has then been raised once per turn begun. *)
Theorem background_logger_ends_on_panic
  (cfg : Config) (good : list Random) (rnd : Random) (rest : list Random) (w : World) :
  CRASH_AFTER cfg <= 0 \/ request_count w + len good + 1 < CRASH_AFTER cfg ->
  Forall (fun r => panics cfg r = false) good ->
  panics cfg rnd = true ->
  let w' := snd (background_logger cfg (good ++ rnd :: rest) w) in
  fst (background_logger cfg (good ++ rnd :: rest) w)
  = Raise (Exception (random_choice rnd ERROR_MESSAGES))
  /\ request_count w' = request_count w + len good + 1
  /\ infos (log_output w')
     = (infos (log_output w) ++ status_records (request_count w) (List.length good))%list
  /\ w' = snd (background_logger cfg (good ++ [rnd]) w).
Proof.
  intros Hlim Hcalm Hp w'. subst w'.
  destruct (background_logger_runs cfg good w) as (Hret & Hrc & Hinfos);
    [ lia | exact Hcalm | ].
  assert (Hlast : forall tail,
             background_logger cfg (good ++ rnd :: tail) w
             = (Raise (Exception (random_choice rnd ERROR_MESSAGES)),
                snd (simulate_error cfg rnd (snd (background_logger cfg good w))))).
  { intros tail. rewrite background_logger_app. unfold bind at 1.
    destruct (background_logger cfg good w) as [c w1]. cbn [fst snd] in *. subst c.
    cbn [background_logger]. unfold bind at 1.
    assert (Hg : crash_limit_reached cfg (request_count w1 + 1) = false)
      by (apply crash_limit_not_reached_spec; lia).
    rewrite (background_tick_raises cfg rnd w1 (Exception (random_choice rnd ERROR_MESSAGES))).
    - reflexivity.
    - rewrite simulate_error_no_crash by assumption. rewrite Hp. reflexivity. }
  rewrite (Hlast rest), (Hlast []). cbn [fst snd].
  rewrite simulate_error_request_count, simulate_error_infos, Hrc, Hinfos.
  repeat split.
Qed.

Lemma background_logger_ends_on_panic_witness :
  fst (background_logger cfg_panic_leak [half; half; half] initial)
  = Raise (Exception "AuthenticationError: JWT token expired or invalid")
  /\ request_count (snd (background_logger cfg_panic_leak [half; half; half] initial)) = 1.
Proof.
  destruct (background_logger_ends_on_panic cfg_panic_leak [] half [half; half] initial)
    as (Hraise & Hrc & _).
  - left. cbn. lia.
  - constructor.
  - reflexivity.
  - split; [ exact Hraise | exact Hrc ].
Defined.




(** ** Reading the configuration *)

Lemma ascii_lower_preimage (c target : ascii) :
  ascii_lower c = target ->
  c = target \/ (c = ascii_of_nat (nat_of_ascii target - 32)
                 /\ (97 <= nat_of_ascii target <= 122)%nat).
Proof.
  unfold ascii_lower. intros H.
  destruct ((65 <=? nat_of_ascii c) && (nat_of_ascii c <=? 90))%nat eqn:Hrange.
  - right. apply andb_true_iff in Hrange. destruct Hrange as [Hlo Hhi].
    apply Nat.leb_le in Hlo, Hhi. subst target.
    rewrite nat_ascii_embedding by lia.
    split; [ | lia ].
    replace (nat_of_ascii c + 32 - 32)%nat with (nat_of_ascii c) by lia.
    symmetry. apply ascii_nat_embedding.
  - left. exact H.
Qed.

Lemma str_lower_true (v : string) :
  str_lower v = "true" <->
  exists c1 c2 c3 c4,
    v = String c1 (String c2 (String c3 (String c4 EmptyString)))
    /\ (c1 = "t" \/ c1 = "T")%char /\ (c2 = "r" \/ c2 = "R")%char
    /\ (c3 = "u" \/ c3 = "U")%char /\ (c4 = "e" \/ c4 = "E")%char.
Proof.
  split.
  - intros H.
    destruct v as [ | c1 [ | c2 [ | c3 [ | c4 [ | c5 v ] ] ] ] ]; try discriminate H.
    cbn [str_lower] in H. injection H as H1 H2 H3 H4.
    exists c1, c2, c3, c4. split; [ reflexivity | ].
    apply ascii_lower_preimage in H1, H2, H3, H4.
    cbn in H1, H2, H3, H4. intuition.
  - intros (c1 & c2 & c3 & c4 & -> & H1 & H2 & H3 & H4).
    destruct H1 as [-> | ->], H2 as [-> | ->], H3 as [-> | ->], H4 as [-> | ->];
      reflexivity.
Qed.

(** X16.  [OOM_TRIGGER] is switched on by the word "true" alone, in any
    mix of upper and lower case: for an ASCII value of the environment
    variable, the setting is on exactly when the value has the four letters
    t, r, u, e, each in either case; "1", "yes", "on" or a padded " true"
    leave it off, and so does an unset variable.  An unset [ERROR_TYPE]
    reads as "none". *)
Theorem oom_trigger_is_the_word_true (environ : string -> option string) :
  ascii_only (os_getenv environ "OOM_TRIGGER" "false") = true ->
  (read_OOM_TRIGGER environ = true <->
     exists c1 c2 c3 c4,
       environ "OOM_TRIGGER" = Some (String c1 (String c2 (String c3 (String c4 EmptyString))))
       /\ (c1 = "t" \/ c1 = "T")%char /\ (c2 = "r" \/ c2 = "R")%char
       /\ (c3 = "u" \/ c3 = "U")%char /\ (c4 = "e" \/ c4 = "E")%char)
  /\ (environ "OOM_TRIGGER" = None -> read_OOM_TRIGGER environ = false)
  /\ (forall v, In v ["1"; "yes"; "on"; " true"; "true "; "truee"] ->
        environ "OOM_TRIGGER" = Some v -> read_OOM_TRIGGER environ = false)
  /\ (environ "ERROR_TYPE" = None -> read_ERROR_TYPE environ = "none").
Proof.
  intros _. unfold read_OOM_TRIGGER, read_ERROR_TYPE, os_getenv.
  split; [ | split; [ | split ] ].
  - rewrite String.eqb_eq, str_lower_true.
    destruct (environ "OOM_TRIGGER") as [ v | ].
    + split.
      * intros (c1 & c2 & c3 & c4 & -> & H). exists c1, c2, c3, c4. auto.
      * intros (c1 & c2 & c3 & c4 & Hv & H). injection Hv as ->.
        exists c1, c2, c3, c4. auto.
    + split.
      * intros (c1 & c2 & c3 & c4 & Hv & _). discriminate Hv.
      * intros (c1 & c2 & c3 & c4 & Hv & _). discriminate Hv.
  - intros ->. reflexivity.
  - intros v Hin ->. cbn [In] in Hin.
    repeat (destruct Hin as [ <- | Hin ]; [ reflexivity | ]). contradiction.
  - intros ->. reflexivity.
Qed.

Lemma oom_trigger_is_the_word_true_witness :
  ascii_only (os_getenv environ_oom "OOM_TRIGGER" "false") = true
  /\ read_OOM_TRIGGER environ_oom = true
  /\ read_ERROR_TYPE environ_oom = "none".
Proof.
  split; [ reflexivity | ].
  destruct (oom_trigger_is_the_word_true environ_oom eq_refl) as (Hon & _ & _ & Htype).
  split.
  - apply Hon. exists "T"%char, "r"%char, "u"%char, "e"%char.
    repeat split; auto.
  - apply Htype. reflexivity.
Defined.

(** ** Request numbers *)

(** X17.  The number a [GET /] response reports identifies the request:
    if a request is answered, then any run of engine invocations takes
    place, and then another request is answered, the second response reports
    the first number plus the number of invocations in between plus one.  So
    the reported numbers strictly increase and no two answers share one. *)
Theorem reported_request_numbers_increase
  (cfg : Config) (r1 r2 : Random) (rnds : list Random) (w : World) (resp1 resp2 : Response) :
  fst (index cfg r1 w) = Return resp1 ->
  fst (index cfg r2 (snd (invocations cfg rnds (snd (index cfg r1 w))))) = Return resp2 ->
  exists n1 n2,
    body resp1 = index_body cfg n1
    /\ body resp2 = index_body cfg n2
    /\ n1 = request_count w + 1
    /\ n2 = n1 + len (fst (invocations cfg rnds (snd (index cfg r1 w)))) + 1
    /\ n1 < n2.
Proof.
  intros H1 H2.
  pose proof (invocations_request_count cfg rnds (snd (index cfg r1 w))) as Hrun.
  rewrite index_world, simulate_error_request_count in Hrun. rewrite index_world in H2.
  set (w1 := snd (invocations cfg rnds (snd (simulate_error cfg r1 w)))) in *.
  rewrite index_world. 
  set (k := len (fst (invocations cfg rnds (snd (simulate_error cfg r1 w))))) in *.
  assert (Hk : 0 <= k) by (subst k; unfold len; lia).
  unfold index, bind in H1, H2.
  pose proof (simulate_error_request_count cfg r1 w) as Hrc1.
  pose proof (simulate_error_request_count cfg r2 w1) as Hrc2.
  destruct (simulate_error cfg r1 w) as [[ [] | e1 ] wa]; [ | discriminate H1 ].
  destruct (simulate_error cfg r2 w1) as [[ [] | e2 ] wb]; [ | discriminate H2 ].
  cbn in H1, H2, Hrc1, Hrc2. injection H1 as <-. injection H2 as <-.
  exists (request_count wa), (request_count wb). cbn [body jsonify].
  repeat split; try reflexivity; lia.
Qed.

Lemma reported_request_numbers_increase_witness :
  exists n1 n2,
    n1 = 1 /\ n2 = 4
    /\ fst (index cfg_quiet half initial) = Return (mkResponse 200 (index_body cfg_quiet n1))
    /\ fst (index cfg_quiet half
              (snd (invocations cfg_quiet [half; half]
                      (snd (index cfg_quiet half initial)))))
       = Return (mkResponse 200 (index_body cfg_quiet n2)).
Proof.
  destruct (reported_request_numbers_increase cfg_quiet half half [half; half] initial
              (mkResponse 200 (index_body cfg_quiet 1))
              (mkResponse 200 (index_body cfg_quiet 4)) eq_refl eq_refl)
    as (n1 & n2 & _ & _ & Hn1 & Hn2 & _).
  exists 1, 4. repeat split.
Defined.

(** X18.  When a [GET /] is answered and its draw was below
    [ERROR_RATE], the records this request added to the log include an ERROR
    record "ERROR [n]: message" whose [n] is the request number reported in
    the response and whose message is an entry of the catalogue
    [ERROR_MESSAGES]. *)
Theorem error_line_carries_request_number (cfg : Config) (rnd : Random) (w : World)
  (resp : Response) :
  fst (index cfg rnd w) = Return resp ->
  draw_succeeds cfg rnd = true ->
  (randbelow rnd < List.length ERROR_MESSAGES)%nat ->
  exists n error_msg recs,
    body resp = index_body cfg n
    /\ n = request_count w + 1
    /\ In error_msg ERROR_MESSAGES
    /\ emitted w (snd (index cfg rnd w)) recs
    /\ In (mkLog ERROR ("❌ ERROR [" ++ str n ++ "]: " ++ error_msg)) recs.
Proof.
  intros Hret Hd Hpick.
  rewrite index_world. unfold index, bind in Hret. unfold emitted.
  destruct (crash_limit_reached cfg (request_count w + 1)) eqn:Hg.
  - rewrite simulate_error_crash in Hret by assumption. discriminate Hret.
  - rewrite simulate_error_no_crash in * by assumption.
    destruct (panics cfg rnd); [ discriminate Hret | ].
    cbn in Hret. injection Hret as <-.
    exists (request_count w + 1), (random_choice rnd ERROR_MESSAGES).
    eexists. split; [ reflexivity | ]. split; [ reflexivity | ].
    split; [ apply random_choice_in, Hpick | ].
    split; [ reflexivity | ].
    unfold probabilistic_records. rewrite Hd.
    rewrite !in_app_iff. right. left. left. reflexivity.
Qed.

Lemma error_line_carries_request_number_witness :
  exists n error_msg recs,
    n = 1
    /\ In error_msg ERROR_MESSAGES
    /\ emitted initial (snd (index cfg_always half initial)) recs
    /\ In (mkLog ERROR ("❌ ERROR [" ++ str n ++ "]: " ++ error_msg)) recs.
Proof.
  destruct (error_line_carries_request_number cfg_always half initial
              (mkResponse 200 (index_body cfg_always 1)) eq_refl eq_refl)
    as (n & error_msg & recs & _ & Hn & Hmsg & Hem & Hin).
  - cbn. lia.
  - exists n, error_msg, recs. repeat split; assumption.
Defined.
